(** * trip-sass: import resolution and the top-level driver

    A shallow embedding of the build function of trip-sass
    ([src/index.js] and the second revision of the same file), with the
    properties of its import resolution, existence check, error
    translation and driver.

    The two revisions differ in a handful of places (the extension
    regular expression, the default [include] pattern, the base directory
    of the build graph and the [catch] block); the embedding takes the
    revision as a parameter wherever they differ. *)

From Stdlib Require Import String Ascii List Bool Arith Lia.
From stdpp Require Import base option list strings gmap.

Local Open Scope string_scope.
Local Open Scope list_scope.

(** ** JavaScript strings *)

Module JsString.

(** [s.charAt(0)]: the first character as a string, or the empty string. *)
Definition charAt0 (s : string) : string :=
  match s with
  | EmptyString => EmptyString
  | String c _ => String c EmptyString
  end.

(** [s.endsWith(suffix)]. *)
Fixpoint endsWith (s suffix : string) : bool :=
  String.eqb s suffix ||
  match s with
  | EmptyString => false
  | String _ s' => endsWith s' suffix
  end.

(** [s.slice(0, s.length - n)]. *)
Definition dropEnd (n : nat) (s : string) : string :=
  substring 0 (String.length s - n) s.

(** [l.join(sep)]. *)
Definition join (sep : string) (l : list string) : string :=
  String.concat sep l.

(** [s.split('\n')[0]]: the text before the first line feed. *)
Fixpoint firstLine (s : string) : string :=
  match s with
  | EmptyString => EmptyString
  | String c s' =>
      if Ascii.eqb c "010"%char then EmptyString else String c (firstLine s')
  end.

Definition nl : string := String "010"%char EmptyString.
Definition dq : string := String "034"%char EmptyString.

End JsString.

Import JsString.

(** ** The revisions of the source *)

Inductive revision : Type :=
| RevIndex   (* src/index.js *)
| RevPart.   (* the revision with [eitherExtension] and [CodeError] *)

(** ** Regular expressions of the source

    [scssExt = /\.scss$/] and [eitherExtension = /\.s[ca]ss$/]. Both are
    anchored at the end of the input (no [m] flag), so a match is a suffix
    of the subject. *)

Inductive regex : Type := scssExt | eitherExtension.

(** The text matched by the expression, when it matches. *)
Definition regex_match (re : regex) (s : string) : option string :=
  match re with
  | scssExt => if endsWith s ".scss" then Some ".scss" else None
  | eitherExtension =>
      if endsWith s ".scss" then Some ".scss"
      else if endsWith s ".sass" then Some ".sass"
      else None
  end.

(** [re.test(s)]. *)
Definition regex_test (re : regex) (s : string) : bool :=
  match regex_match re s with Some _ => true | None => false end.

(** [s.replace(re, '')]. *)
Definition regex_strip (re : regex) (s : string) : string :=
  match regex_match re s with
  | Some m => dropEnd (String.length m) s
  | None => s
  end.

(** ** External libraries

    Node's [path] module and the [subdir] package are not part of the
    repository: the development is parametric in them. *)

Class PathLib : Type := {
  path_basename : string -> string;
  path_dirname : string -> string;
  path_join : string -> string -> string;
  path_resolve : string -> string -> string;
  path_relative : string -> string -> string;
  path_isAbsolute : string -> bool;
  subdir : string -> string -> bool
}.

(** ** Candidate generation (the body of the [for] loop up to the
    existence check) *)

Section Candidates.
Context {P : PathLib}.

Definition hasUnderscore (argBasename : string) : bool :=
  String.eqb (charAt0 argBasename) "_".

(** [hasSassExt || hasScssExt] in src/index.js,
    [eitherExtension.test(arg)] in the other revision. *)
Definition hasExtension (rev : revision) (arg : string) : bool :=
  match rev with
  | RevIndex => endsWith arg ".sass" || endsWith arg ".scss"
  | RevPart => regex_test eitherExtension arg
  end.

Definition candidates (rev : revision) (arg : string) : list string :=
  let argBasename := path_basename arg in
  let argDirname := path_dirname arg in
  if negb (hasUnderscore argBasename) then
    if hasExtension rev arg then
      [path_join argDirname ("_" +:+ argBasename); arg]
    else
      [path_join argDirname ("_" +:+ argBasename +:+ ".scss");
       path_join argDirname ("_" +:+ argBasename +:+ ".sass");
       arg +:+ ".scss";
       arg +:+ ".sass"]
  else if hasExtension rev arg then [arg]
  else [arg +:+ ".scss"; arg +:+ ".sass"].

End Candidates.

(** ** Values, errors and the outside world *)

(** A Node [Buffer]: raw bytes, decoded by [toString()]. *)
Record Buffer : Type := mkBuffer { buffer_bytes : string }.

(** What [builder.importFile] may hand back: nothing, or the contents as a
    string or a buffer. *)
Inductive js_contents : Type :=
| CUndefined
| CNull
| CFalse
| CString (s : string)
| CBuffer (b : Buffer).

(** JavaScript truthiness: an empty string is falsy, every object is
    truthy (an empty buffer too). *)
Definition truthy (v : js_contents) : bool :=
  match v with
  | CUndefined | CNull | CFalse => false
  | CString s => negb (String.eqb s "")
  | CBuffer _ => true
  end.

(** A rejected read: the error object with its [code]. *)
Record fs_error : Type := mkFsError {
  err_code : option string;
  err_message : string
}.

Inductive read_result : Type :=
| ReadOk (b : Buffer)
| ReadFail (e : fs_error).

(** The failure of [sass.render]. *)
Record sass_error : Type := mkSassError {
  se_message : string;
  se_file : string;
  se_line : nat;
  se_column : nat
}.

(** The result of a property read on the memo object [{}]. *)
Inductive js_value : Type :=
| VUndefined
| VString (s : string)
| VObjectPrototype (key : string).   (* a member inherited from Object.prototype *)

(** Thrown values. *)
Inductive js_error : Type :=
| Error (message : string)
| AssertionError
| FsError (e : fs_error)
| SassError (e : sass_error)
| CodeError (message : string) (file : string) (contents : js_value)
            (line column : nat).

(** [{contents, file}], the answer to an import. *)
Record resolved : Type := mkResolved {
  contents : string;
  file : string
}.

Inductive outcome (A : Type) : Type :=
| Ok (a : A)
| Throw (e : js_error).
Arguments Ok {A} a.
Arguments Throw {A} e.

(** The compiler is opaque: it is a strategy that asks for imports through
    the [importer] hook (with the specifier and the file that contains the
    [@import]) and ends with the CSS or with an error. *)
Inductive sass_run : Type :=
| SassDone (css : string)
| SassFail (e : sass_error)
| SassImport (arg prev : string) (k : outcome resolved -> sass_run).

Record World : Type := mkWorld {
  platform_win32 : bool;                      (* process.platform === 'win32' *)
  this_src : string;                          (* this.src of the build *)
  importFile : string -> js_contents;         (* builder.importFile *)
  readFile : string -> read_result;           (* sander.readFile *)
  buffer_toString : Buffer -> string;         (* Buffer.prototype.toString *)
  micromatch_filter : string -> string -> bool;  (* micromatch.filter(pattern) *)
  sass_render : string -> sass_run            (* render({data, importer, ...}) *)
}.

(** The options after [Object.assign({}, defaults, options)] and the
    normalisation of [loadPaths]. *)
Record Options : Type := mkOptions {
  include : string;
  loadPaths : option (list string)
}.

Definition default_include (rev : revision) : string :=
  match rev with
  | RevIndex => "**/*.scss"
  | RevPart => "**/*.{sass,scss}"
  end.

Definition defaults (rev : revision) : Options :=
  {| include := default_include rev; loadPaths := None |}.

(** [error.code === 'ENOENT']. *)
Definition is_ENOENT (error : fs_error) : bool :=
  match err_code error with
  | Some code => String.eqb code "ENOENT"
  | None => false
  end.

(** ** Calls to the outside world, recorded *)

Inductive event : Type :=
| EvImportFile (relativePath : string)
| EvReadFile (absolutePath : string)
| EvRender (data : string).

(** A computation yields a value or throws, and records its calls. *)
Definition M (A : Type) : Type := (outcome A * list event)%type.

Definition ret {A} (a : A) : M A := (Ok a, []).
Definition throw {A} (e : js_error) : M A := (Throw e, []).
Definition tell (ev : event) : M unit := (Ok tt, [ev]).
Definition bind {A B} (m : M A) (f : A -> M B) : M B :=
  match m with
  | (Ok a, l1) => let '(r, l2) := f a in (r, (l1 ++ l2)%list)
  | (Throw e, l1) => (Throw e, l1)
  end.

Notation "'let*' x ':=' m 'in' k" := (bind m (fun x => k))
  (at level 10, x name, m at level 100, k at level 200).
Notation "m ';;' k" := (bind m (fun _ => k))
  (at level 100, k at level 200, right associativity).

(** [Promise.map(l, f)]: the mapper is started on every element (each call
    reaches its read before any rejection is seen), so every call is
    recorded; the promise is fulfilled with all the results, or rejected
    as soon as a mapper rejects (here: the first in list order). The
    order of the calls made for one list is not specified by the library;
    the properties below do not depend on it. *)
Fixpoint promise_map {A B} (f : A -> M B) (l : list A) : M (list B) :=
  match l with
  | [] => ret []
  | x :: xs =>
      let '(r, l1) := f x in
      let '(rs, l2) := promise_map f xs in
      (match r, rs with
       | Ok b, Ok bs => Ok (b :: bs)
       | Throw e, _ => Throw e
       | Ok _, Throw e => Throw e
       end, (l1 ++ l2)%list)
  end.

(** [.filter(x => x)] on the mapped candidates ([false] is [None]). *)
Definition filter_truthy {A} (l : list (option A)) : list A := omap id l.

(** ** The import hook *)

Section Importer.
Context {P : PathLib}.
Variable rev : revision.
Variable w : World.
Variable options : Options.

(** The root of the build graph: [fakeBase] in src/index.js, [base]
    (that is [this.src]) in the other revision. *)
Definition fakeBase : string :=
  if platform_win32 w then "X:\__TRIP_SASS__" else "/__TRIP_SASS__".

Definition base : string :=
  match rev with
  | RevIndex => fakeBase
  | RevPart => this_src w
  end.

(** [contents.toString()] on a truthy value. *)
Definition contents_toString (v : js_contents) : string :=
  match v with
  | CString s => s
  | CBuffer b => buffer_toString w b
  | CUndefined => "undefined"
  | CNull => "null"
  | CFalse => "false"
  end.

(** The mapper of [Promise.map]: the existence check of one candidate. *)
Definition checkCandidate (loadPath candidate : string) : M (option resolved) :=
  let candidate := path_resolve loadPath candidate in
  if subdir base candidate then
    let relativePath := path_relative base candidate in
    tell (EvImportFile relativePath) ;;
    let contents := importFile w relativePath in
    if truthy contents
    then ret (Some {| contents := contents_toString contents; file := candidate |})
    else ret None
  else
    tell (EvReadFile candidate) ;;
    match readFile w candidate with
    | ReadOk contents =>
        ret (Some {| contents := buffer_toString w contents; file := candidate |})
    | ReadFail error =>
        if negb (is_ENOENT error) then throw (FsError error) else ret None
    end.

Definition existingCandidates (arg loadPath : string) : M (list resolved) :=
  let* found := promise_map (checkCandidate loadPath) (candidates rev arg) in
  ret (filter_truthy found).

(** The message of the error thrown when a directory holds several
    candidates (a template literal, with its line breaks and indentation). *)
Definition indent : string := "                ".

Definition ambiguousMessage (arg importer : string) (files : list string) : string :=
  nl +:+ indent +:+ "It's not clear which file to import for '@import "
     +:+ dq +:+ arg +:+ dq +:+ "' in file " +:+ dq +:+ importer +:+ dq +:+ "."
  +:+ nl +:+ indent +:+ "Candidates:"
  +:+ nl +:+ indent +:+ join nl files
  +:+ nl +:+ indent +:+ "Please delete or rename all but one of these files."
  +:+ nl +:+ "              ".

Definition notFoundMessage (arg : string) : string :=
  "File to import not found or unreadable: " +:+ arg.

(** The [for (const loadPath of loadPaths)] loop and the [throw] after it. *)
Fixpoint tryLoadPaths (arg importer : string) (dirs : list string) : M resolved :=
  match dirs with
  | [] => throw (Error (notFoundMessage arg))
  | loadPath :: rest =>
      let* existing := existingCandidates arg loadPath in
      match existing with
      | [] => tryLoadPaths arg importer rest
      | [found] => ret found
      | _ => throw (Error (ambiguousMessage arg importer (map file existing)))
      end
  end.

(** The file the [@import] was met in. *)
Definition importingFile (entryFile prev : string) : string :=
  if String.eqb prev "stdin" then entryFile else prev.

(** The directories searched, in order. *)
Definition searchPaths (importer : string) : list string :=
  path_dirname importer ::
  match loadPaths options with
  | Some ps => ps
  | None => []
  end.

(** The coroutine of the [importer] hook. [console.assert] threw an
    [AssertionError] on a false condition in the Node releases the code
    was written for; the properties below take an absolute importing
    file, where the assertion passes. *)
Definition resolveImport (entryFile arg prev : string) : M resolved :=
  let importer := importingFile entryFile prev in
  if negb (path_isAbsolute importer) then throw AssertionError
  else tryLoadPaths arg importer (searchPaths importer).

End Importer.

(** ** The memo objects *)

Module Memo.

(** The own properties of an object literal used as a map. *)
Abbreviation t := (gmap string string).

(** The properties every object literal inherits from [Object.prototype]. *)
Definition objectPrototypeKeys : list string :=
  ["constructor"; "__defineGetter__"; "__defineSetter__"; "hasOwnProperty";
   "__lookupGetter__"; "__lookupSetter__"; "isPrototypeOf";
   "propertyIsEnumerable"; "toString"; "valueOf"; "__proto__";
   "toLocaleString"].

Definition inherited (key : string) : bool :=
  existsb (String.eqb key) objectPrototypeKeys.

(** [memo[key]]. *)
Definition get (memo : t) (key : string) : js_value :=
  match memo !! key with
  | Some s => VString s
  | None => if inherited key then VObjectPrototype key else VUndefined
  end.

(** [memo[key] = value] with a string value (assigning a string to
    [__proto__] leaves the object as it is). *)
Definition set (memo : t) (key value : string) : t :=
  if String.eqb key "__proto__" then memo else <[key := value]> memo.

End Memo.

Record memos : Type := mkMemos {
  rememberedImportContents : Memo.t;
  resolvedImportPaths : Memo.t
}.

(** ** The build function *)

(** What [tripSass] returns for one file. *)
Inductive build_result : Type :=
| PassThrough (contents : Buffer)       (* return contents *)
| Blocked                               (* return null *)
| Output (files : gmap string string).  (* return {[outputFile]: css} *)

Section Build.
Context {P : PathLib}.
Variable rev : revision.
Variable w : World.
Variable options : Options.

(** The expression that strips the extension of the entry file. *)
Definition outputRegex : regex :=
  match rev with
  | RevIndex => scssExt
  | RevPart => eitherExtension
  end.

Definition outputFileOf (file : string) : string :=
  regex_strip outputRegex file +:+ ".css".

Definition initialMemos (entryFile : string) : memos :=
  {| rememberedImportContents := ∅;
     resolvedImportPaths :=
       match rev with
       | RevIndex => {[ "stdin" := entryFile ]}
       | RevPart => ∅
       end |}.

(** The [.then] of the hook: remember how the import was resolved. *)
Definition remember (arg : string) (result : resolved) (m : memos) : memos :=
  {| rememberedImportContents :=
       Memo.set (rememberedImportContents m) (file result) (contents result);
     resolvedImportPaths :=
       match rev with
       | RevIndex => Memo.set (resolvedImportPaths m) arg (file result)
       | RevPart => resolvedImportPaths m
       end |}.

(** [render(config)]: the compiler runs, every import goes through the
    hook, whose answer ([done(result)] or [done(error)]) is handed back. *)
Fixpoint render (entryFile : string) (run : sass_run) (m : memos)
  : (sass_error + string) * memos * list event :=
  match run with
  | SassDone css => (inr css, m, [])
  | SassFail error => (inl error, m, [])
  | SassImport arg prev k =>
      let '(answer, l1) := resolveImport rev w options entryFile arg prev in
      let m' :=
        match answer with
        | Ok result => remember arg result m
        | Throw _ => m
        end in
      let '(r, m'', l2) := render entryFile (k answer) m' in
      (r, m'', (l1 ++ l2)%list)
  end.

(** The [catch] block: src/index.js throws the error again as it is, the
    other revision translates it. *)
Definition translateError (entryFile source : string) (m : memos)
           (error : sass_error) : js_error :=
  match rev with
  | RevIndex => SassError error
  | RevPart =>
      CodeError
        (firstLine (se_message error))
        (if String.eqb (se_file error) "stdin" then entryFile else se_file error)
        (if String.eqb (se_file error) "stdin" then VString source
         else Memo.get (rememberedImportContents m) (se_file error))
        (se_line error)
        (se_column error)
  end.

(** The build function for one file. The options of the user for the
    compiler are handed to it as they are and play no part here. *)
Definition tripSass (file : string) (contents : Buffer) : M build_result :=
  (* skip irrelevant files *)
  if negb (micromatch_filter w (include options) file) then ret (PassThrough contents)
  (* block partials *)
  else if hasUnderscore (path_basename file) then ret Blocked
  else
    let outputFile := outputFileOf file in
    let source := buffer_toString w contents in
    if String.eqb source "" then ret (Output {[ outputFile := "" ]})
    else
      let entryFile := path_resolve (base rev w) file in
      let '(r, m, calls) :=
        render entryFile (sass_render w source) (initialMemos entryFile) in
      match r with
      | inr css => (Ok (Output {[ outputFile := css ]}), EvRender source :: calls)
      | inl error =>
          (Throw (translateError entryFile source m error), EvRender source :: calls)
      end.

(** The imports a run of the compiler asks for, each with the answer of
    the hook, in order. *)
Fixpoint answers (entryFile : string) (run : sass_run)
  : list (string * outcome resolved) :=
  match run with
  | SassDone _ | SassFail _ => []
  | SassImport arg prev k =>
      let answer := fst (resolveImport rev w options entryFile arg prev) in
      (arg, answer) :: answers entryFile (k answer)
  end.

(** The memos after a list of answers. *)
Definition rememberAll (l : list (string * outcome resolved)) (m : memos) : memos :=
  fold_left (fun m a =>
               match snd a with
               | Ok result => remember (fst a) result m
               | Throw _ => m
               end) l m.

End Build.

(** The [file] of a translated error, if the thrown value is one. *)
Definition reportedFile (e : js_error) : option string :=
  match e with
  | CodeError _ file _ _ _ => Some file
  | _ => None
  end.

(** The placeholder of the lines of the [catch] block that are commented
    out in both revisions: [`unknown(${error.file})`]. *)
Definition unknownFile (token : string) : string := "unknown(" +:+ token +:+ ")".

(** ** A POSIX instance of the path library

    Modelled on [path.posix] of Node, to run the embedding on concrete
    inputs. Paths are handled as lists of segments. *)

Module Posix.

Definition slash : ascii := "/"%char.

(** [s.split('/')]. *)
Fixpoint split (s : string) : list string :=
  match s with
  | EmptyString => [EmptyString]
  | String c s' =>
      if Ascii.eqb c slash then EmptyString :: split s'
      else match split s' with
           | seg :: segs => String c seg :: segs
           | [] => [String c EmptyString]
           end
  end.

Definition isAbsolute (p : string) : bool :=
  match p with
  | String c _ => Ascii.eqb c slash
  | EmptyString => false
  end.

(** One step of [normalizeString]: [acc] holds the segments kept so far,
    innermost first. *)
Definition pushSegment (allowAboveRoot : bool) (acc : list string) (seg : string)
  : list string :=
  if String.eqb seg "" || String.eqb seg "." then acc
  else if String.eqb seg ".." then
    match acc with
    | prev :: acc' => if String.eqb prev ".." then seg :: acc else acc'
    | [] => if allowAboveRoot then [seg] else []
    end
  else seg :: acc.

Definition normalizeSegments (allowAboveRoot : bool) (segs : list string)
  : list string :=
  rev (fold_left (pushSegment allowAboveRoot) segs []).

Definition unsplit (segs : list string) : string := String.concat "/" segs.

Definition normalize (p : string) : string :=
  if String.eqb p "" then "."
  else
    let trailingSeparator := JsString.endsWith p "/" in
    let body := unsplit (normalizeSegments (negb (isAbsolute p)) (split p)) in
    if String.eqb body "" then
      if isAbsolute p then "/" else if trailingSeparator then "./" else "."
    else
      let body := if trailingSeparator then body +:+ "/" else body in
      if isAbsolute p then "/" +:+ body else body.

Definition join (a b : string) : string :=
  if String.eqb a "" then normalize b
  else if String.eqb b "" then normalize a
  else normalize (a +:+ "/" +:+ b).

Section WithCwd.
(** [process.cwd()], an absolute path. *)
Variable cwd : string.

Definition resolveSegments (a b : string) : list string :=
  if isAbsolute b then normalizeSegments false (split b)
  else if isAbsolute a then normalizeSegments false (split a ++ split b)
  else normalizeSegments false (split cwd ++ split a ++ split b).

Definition resolve (a b : string) : string :=
  "/" +:+ unsplit (resolveSegments a b).

Fixpoint relativeSegments (from to : list string) : list string :=
  match from, to with
  | f :: from', t :: to' =>
      if String.eqb f t then relativeSegments from' to'
      else (map (fun _ => "..") from ++ to)%list
  | _, _ => (map (fun _ => "..") from ++ to)%list
  end.

Definition relative (from to : string) : string :=
  unsplit (relativeSegments (resolveSegments "" from) (resolveSegments "" to)).

Definition isSlash (c : ascii) : bool := Ascii.eqb c slash.

Fixpoint dropWhile (f : ascii -> bool) (l : list ascii) : list ascii :=
  match l with
  | c :: l' => if f c then dropWhile f l' else l
  | [] => []
  end.

Fixpoint takeWhile (f : ascii -> bool) (l : list ascii) : list ascii :=
  match l with
  | c :: l' => if f c then c :: takeWhile f l' else []
  | [] => []
  end.

(** The text holds no slash. *)
Fixpoint noSlash (s : string) : bool :=
  match s with
  | EmptyString => true
  | String c s' => negb (isSlash c) && noSlash s'
  end.

(** The scan from the end of the path: trailing slashes are skipped,
    the run of other characters before them is the base name. *)
Definition basename (p : string) : string :=
  let r := dropWhile isSlash (rev (list_ascii_of_string p)) in
  string_of_list_ascii (rev (takeWhile (fun c => negb (isSlash c)) r)).

(** The same scan, which never looks at the first character: the
    directory name ends before the slash that precedes the base name. *)
Definition dirname (p : string) : string :=
  match p with
  | EmptyString => "."
  | String c0 rest =>
      let r := dropWhile isSlash (rev (list_ascii_of_string rest)) in
      match dropWhile (fun c => negb (isSlash c)) r with
      | [] => if isSlash c0 then "/" else "."
      | _ :: r' =>
          match r' with
          | [] => if isSlash c0 then "//" else String c0 EmptyString
          | _ => String c0 (string_of_list_ascii (rev r'))
          end
      end
  end.

(** [subdir(base, dir)]: [dir] lies below [base]. *)
Definition isSubdir (base dir : string) : bool :=
  match relativeSegments (resolveSegments "" base) (resolveSegments "" dir) with
  | [] => false
  | seg :: _ => negb (String.eqb seg "..")
  end.

Definition lib : PathLib :=
  {| path_basename := basename;
     path_dirname := dirname;
     path_join := join;
     path_resolve := resolve;
     path_relative := relative;
     path_isAbsolute := isAbsolute;
     subdir := isSubdir |}.

End WithCwd.

End Posix.

(** ** Glob patterns

    [micromatch.filter(pattern)] as micromatch 2.3 answers, for patterns
    made of literal characters, [*], [**/] at the start of a segment and
    one brace group of literal alternatives, with the default options:
    - the brace group is expanded first, and the alternatives are tried in
      turn;
    - [**/] stands for any number of directories, none of which starts with
      a dot or holds a line terminator;
    - a [*] stands for any run of characters other than [/]. The first [*]
      of the expanded pattern that follows [**/] or another character also
      takes a leading dot; every other [*] refuses a text that starts with
      a dot. *)

Module Glob.

Inductive token : Type :=
| TChar (c : ascii)
| TStar (noDot : bool)   (* [*]; whether it refuses a leading dot *)
| TGlobstar.             (* [**/] at the start of a segment *)

(** What precedes the next character of the pattern. *)
Inductive before : Type :=
| AtStart
| AfterSlash
| AfterGlobstar
| AfterChar.


(** The alternatives of a brace group, read from after its [{], and the
    text that follows its [}]. *)
Fixpoint alternatives (alts : list string) (cur : string) (s : string)
  : option (list string * string) :=
  match s with
  | EmptyString => None
  | String c rest =>
      if Ascii.eqb c "}" then Some (alts ++ [cur], rest)
      else if Ascii.eqb c "," then alternatives (alts ++ [cur]) "" rest
      else alternatives alts (cur +:+ String c EmptyString) rest
  end.

Fixpoint expandBraces (prefix pattern : string) : list string :=
  match pattern with
  | EmptyString => [prefix]
  | String c rest =>
      if Ascii.eqb c "{" then
        match alternatives [] "" rest with
        | Some (alts, suffix) => map (fun alt => prefix +:+ alt +:+ suffix) alts
        | None => [prefix +:+ pattern]
        end
      else expandBraces (prefix +:+ String c EmptyString) rest
  end.

(** The tokens of one alternative. [taken] tells whether an earlier [*] of
    the expanded pattern has taken the form that allows a leading dot. *)
Fixpoint parse (b : before) (taken : bool) (pattern : string) : list token * bool :=
  match pattern with
  | EmptyString => ([], taken)
  | String c rest =>
      if Ascii.eqb c "*" then
        match b, rest with
        | (AtStart | AfterSlash), String "*" (String "/" rest') =>
            let '(ts, taken') := parse AfterGlobstar taken rest' in
            (TGlobstar :: ts, taken')
        | _, _ =>
            let takes :=
              match b with
              | AfterGlobstar | AfterChar => negb taken
              | AtStart | AfterSlash => false
              end in
            let '(ts, taken') := parse AfterChar (taken || takes) rest in
            (TStar (negb takes) :: ts, taken')
        end
      else
        let '(ts, taken') :=
          parse (if Ascii.eqb c "/" then AfterSlash else AfterChar) taken rest in
        (TChar c :: ts, taken')
  end.

Fixpoint parseAll (taken : bool) (alts : list string) : list (list token) :=
  match alts with
  | [] => []
  | alt :: alts' =>
      let '(ts, taken') := parse AtStart taken alt in
      ts :: parseAll taken' alts'
  end.

(** The text starts with a line terminator of JavaScript: LF, CR, or
    U+2028 or U+2029 (in UTF-8). *)
Definition lineTerminator (s : string) : bool :=
  match s with
  | String c rest =>
      Ascii.eqb c "010" || Ascii.eqb c "013" ||
      match c, rest with
      | "226"%char, String "128"%char (String d _) =>
          Ascii.eqb d "168" || Ascii.eqb d "169"
      | _, _ => false
      end
  | EmptyString => false
  end.

Fixpoint matches (ts : list token) (s : string) : bool :=
  match ts with
  | [] => String.eqb s ""
  | TChar c :: ts' =>
      match s with
      | String d s' => Ascii.eqb c d && matches ts' s'
      | EmptyString => false
      end
  | TStar noDot :: ts' =>
      let run :=
        fix run (s : string) : bool :=
          matches ts' s ||
          match s with
          | String c s' => negb (Ascii.eqb c "/") && run s'
          | EmptyString => false
          end in
      if noDot then
        match s with
        | String c _ => negb (Ascii.eqb c ".") && run s
        | EmptyString => false
        end
      else run s
  | TGlobstar :: ts' =>
      (fix dirs (atStart : bool) (s : string) : bool :=
         (atStart && matches ts' s) ||
         match s with
         | String c s' =>
             if lineTerminator s then false
             else if Ascii.eqb c "/" then dirs true s'
             else if atStart && Ascii.eqb c "." then false
             else dirs false s'
         | EmptyString => false
         end) true s
  end.



(** [micromatch.filter(pattern)(file)]. *)
Definition filter (pattern file : string) : bool :=
  existsb (fun ts => matches ts file) (parseAll false (expandBraces "" pattern)).





End Glob.

(** ** Worlds to run the embedding on *)

Module Example.

Definition lib : PathLib := Posix.lib "/work".
#[export] Existing Instance lib.

(** Nothing in the build graph, nothing on disk. *)
Definition emptyWorld : World :=
  {| platform_win32 := false;
     this_src := "/proj";
     importFile := fun _ => CUndefined;
     readFile := fun _ => ReadFail (mkFsError (Some "ENOENT") "no such file");
     buffer_toString := buffer_bytes;
     micromatch_filter := Glob.filter;
     sass_render := fun css => SassDone css |}.

Definition lookupFile (files : list (string * string)) (path : string)
  : option string :=
  match List.find (fun entry => String.eqb (fst entry) path) files with
  | Some entry => Some (snd entry)
  | None => None
  end.

Definition EACCES : fs_error := mkFsError (Some "EACCES") "permission denied".
Definition ENOENT : fs_error := mkFsError (Some "ENOENT") "no such file or directory".

(** A build graph rooted at [/proj], with two load paths on disk. *)
Definition graph (relativePath : string) : js_contents :=
  if String.eqb relativePath "a/_blank.scss" then CString ""
  else match lookupFile [("a/_foo.scss", "a{}"); ("a/_dup.scss", "d1");
                         ("a/dup.scss", "d2")] relativePath with
       | Some text => CBuffer (mkBuffer text)
       | None => CUndefined
       end.

Definition disk (absolutePath : string) : read_result :=
  if String.eqb absolutePath "/lib/locked.scss" then ReadFail EACCES
  else match lookupFile [("/lib/_bar.scss", "b{}"); ("/vendor/bar.scss", "v{}");
                         ("/vendor/dup.scss", "single");
                         ("/proj/a/_blank.scss", "on disk")] absolutePath with
       | Some text => ReadOk (mkBuffer text)
       | None => ReadFail ENOENT
       end.

(** A compiler that imports [foo] from the entry file and then rejects
    the imported file. *)
Definition failingRun : sass_run :=
  SassImport "foo" "stdin" (fun answer =>
    match answer with
    | Ok found =>
        SassFail (mkSassError ("Invalid CSS after a" +:+ nl +:+ "  in mixin")
                              (file found) 1 2)
    | Throw _ => SassFail (mkSassError "File to import not found" "stdin" 1 9)
    end).

Definition project : World :=
  {| platform_win32 := false;
     this_src := "/proj";
     importFile := graph;
     readFile := disk;
     buffer_toString := buffer_bytes;
     micromatch_filter := Glob.filter;
     sass_render := fun _ => failingRun |}.

(** The same project with a compiler that fails at once, in a file that
    no import resolved to. *)
Definition elsewhere : World :=
  {| platform_win32 := false;
     this_src := "/proj";
     importFile := graph;
     readFile := disk;
     buffer_toString := buffer_bytes;
     micromatch_filter := Glob.filter;
     sass_render := fun _ => SassFail (mkSassError "boom" "/elsewhere/x.scss" 3 4) |}.

(** The same project built from the directory that src/index.js uses as
    the root of the build graph. *)
Definition staged : World :=
  {| platform_win32 := false;
     this_src := "/__TRIP_SASS__";
     importFile := graph;
     readFile := disk;
     buffer_toString := buffer_bytes;
     micromatch_filter := Glob.filter;
     sass_render := fun _ => failingRun |}.

(** A disk where every file is there and empty. *)
Definition blankDisk : World :=
  {| platform_win32 := false;
     this_src := "/proj";
     importFile := fun _ => CUndefined;
     readFile := fun _ => ReadOk (mkBuffer "");
     buffer_toString := buffer_bytes;
     micromatch_filter := Glob.filter;
     sass_render := fun css => SassDone css |}.

Definition projectOptions (rev : revision) : Options :=
  {| include := default_include rev; loadPaths := Some ["/lib"; "/vendor"] |}.

End Example.

(** ** What the existence check sees

    The state of the world at an absolute candidate path, read off the
    mapper of [Promise.map]: which call answers for the path, what is found
    there, and whether the read fails for good. *)

Section Existence.
Context {P : PathLib}.
Variable rev : revision.
Variable w : World.

(** The path lies under the root of the build graph. *)
Definition inGraph (candidate : string) : bool := subdir (base rev w) candidate.

(** The one call made for the path. *)
Definition queryOf (candidate : string) : event :=
  if inGraph candidate
  then EvImportFile (path_relative (base rev w) candidate)
  else EvReadFile candidate.

(** The file found at the path, if any. *)
Definition existsAt (candidate : string) : option resolved :=
  if inGraph candidate then
    let found := importFile w (path_relative (base rev w) candidate) in
    if truthy found
    then Some {| contents := contents_toString w found; file := candidate |}
    else None
  else
    match readFile w candidate with
    | ReadOk found => Some {| contents := buffer_toString w found; file := candidate |}
    | ReadFail _ => None
    end.

(** The read of the path fails with something else than [ENOENT]. *)
Definition readFailure (candidate : string) : option fs_error :=
  if inGraph candidate then None
  else
    match readFile w candidate with
    | ReadOk _ => None
    | ReadFail error => if is_ENOENT error then None else Some error
    end.

(** The candidates of a directory as absolute paths, in order. *)
Definition fullCandidates (arg loadPath : string) : list string :=
  map (path_resolve loadPath) (candidates rev arg).

(** The candidates of a directory that exist, in order. *)
Definition matchesIn (arg loadPath : string) : list resolved :=
  omap existsAt (fullCandidates arg loadPath).

(** No candidate of the directory fails to be read. *)
Definition readable (arg loadPath : string) : bool :=
  forallb (fun candidate =>
             match readFailure candidate with None => true | Some _ => false end)
          (fullCandidates arg loadPath).

(** The directory holds no candidate that exists. *)
Definition emptyIn (arg loadPath : string) : bool :=
  readable arg loadPath &&
  match matchesIn arg loadPath with [] => true | _ :: _ => false end.

(** The calls made for a directory. *)
Definition queriesIn (arg loadPath : string) : list event :=
  map queryOf (fullCandidates arg loadPath).

(** The calls made for a list of directories. *)
Definition queriesOf (arg : string) (dirs : list string) : list event :=
  flat_map (queriesIn arg) dirs.

End Existence.

(** ** The options as the user gives them, and their normalisation *)

(** A value given for [loadPaths], [loadPath] or [importPaths]. *)
#[warning="-register-all"]
Inductive js_option : Type :=
| OUndefined
| OString (s : string)
| OArray (items : list js_option)
| OOther (isTruthy : bool).   (* null, a boolean, a number, an object *)

Definition option_truthy (v : js_option) : bool :=
  match v with
  | OUndefined => false
  | OString s => negb (String.eqb s "")
  | OArray _ => true
  | OOther isTruthy => isTruthy
  end.

(** [_.isString]. *)
Definition isString (v : js_option) : bool :=
  match v with
  | OString _ => true
  | _ => false
  end.

(** The value of [sourceMap]. *)
Inductive source_map : Type :=
| SourceMapBool (b : bool)
| SourceMapPath (s : string)
| SourceMapUndefined.

Definition source_map_truthy (v : source_map) : bool :=
  match v with
  | SourceMapBool b => b
  | SourceMapPath s => negb (String.eqb s "")
  | SourceMapUndefined => false
  end.

(** The options object handed to the plugin ([None]: the key is absent). *)
Record UserOptions : Type := mkUserOptions {
  user_include : option string;
  user_sourceMap : option source_map;
  user_loadPaths : js_option;
  user_loadPath : js_option;
  user_importPaths : js_option
}.

(** What the plugin function does before it returns the build function. *)
Inductive setup_result : Type :=
| SetupOk (options : Options)
| SetupTypeError (message : string).

Definition invalidLoadPaths : string :=
  "trip-sass: Invalid " +:+ dq +:+ "loadPaths" +:+ dq +:+ " option".

Section Setup.
Context {P : PathLib}.

(** [options.loadPaths] after the aliases have been looked at. *)
Definition chooseLoadPaths (u : UserOptions) : js_option :=
  if negb (option_truthy (user_loadPaths u)) then
    if option_truthy (user_loadPath u) then user_loadPath u
    else if option_truthy (user_importPaths u) then user_importPaths u
    else user_loadPaths u
  else user_loadPaths u.

(** [items.every(_.isString)], with the strings. *)
Fixpoint everyString (items : list js_option) : option (list string) :=
  match items with
  | [] => Some []
  | OString s :: rest =>
      match everyString rest with
      | Some l => Some (s :: l)
      | None => None
      end
  | _ :: _ => None
  end.

(** [path.resolve(loadPath)]: the path against the working directory
    (an empty first segment is ignored by [path.resolve]). *)
Definition path_resolve1 (loadPath : string) : string := path_resolve "" loadPath.

(** The normalisation of the chosen value: the load paths, or the
    [TypeError]. [None] stands for a value that stays falsy. *)
Definition normaliseLoadPaths (v : js_option) : option (option (list string)) :=
  if option_truthy v then
    match v with
    | OString s => Some (Some [path_resolve1 s])
    | OArray items =>
        match everyString items with
        | Some l => Some (Some (map path_resolve1 l))
        | None => None
        end
    | _ => None
    end
  else Some None.

Definition setup (rev : revision) (u : UserOptions) : setup_result :=
  match normaliseLoadPaths (chooseLoadPaths u) with
  | Some paths =>
      SetupOk {| include := default (default_include rev) (user_include u);
                 loadPaths := paths |}
  | None => SetupTypeError invalidLoadPaths
  end.

(** ** The options handed to the compiler

    [sassOptions] is shared by all the builds of one plugin: it is picked
    from the options on the first compile, copied into the [config] of the
    compile, and only then given the [outFile] of that compile. *)

Record SassOptions : Type := mkSassOptions {
  so_sourceMap : source_map;
  so_outFile : option string
}.

(** The part of [config] that comes from [sassOptions], with the source. *)
Record SassConfig : Type := mkSassConfig {
  cfg_data : string;
  cfg_sourceMap : source_map;
  cfg_outFile : option string
}.

(** [options.sourceMap] after [Object.assign({}, defaults, options)]. *)
Definition optionSourceMap (u : UserOptions) : source_map :=
  default (SourceMapBool true) (user_sourceMap u).

(** From [if (!sassOptions)] to the end of [if (sassOptions.sourceMap)]:
    the [config] of this compile and [sassOptions] after it. *)
Definition configure (u : UserOptions) (sassOptions : option SassOptions)
           (source outputFile : string) : SassConfig * option SassOptions :=
  let picked :=
    match sassOptions with
    | Some so => so
    | None => {| so_sourceMap := optionSourceMap u; so_outFile := None |}
    end in
  let config :=
    {| cfg_data := source;
       cfg_sourceMap := so_sourceMap picked;
       cfg_outFile := so_outFile picked |} in
  (config,
   Some (if source_map_truthy (so_sourceMap picked)
         then {| so_sourceMap := SourceMapBool true;
                 so_outFile := Some (path_resolve1 outputFile) |}
         else picked)).

(** The configs of a series of compiles, each given as the source and the
    output file name, in the order they start. *)
Fixpoint configureAll (u : UserOptions) (sassOptions : option SassOptions)
         (compiles : list (string * string)) : list SassConfig :=
  match compiles with
  | [] => []
  | (source, outputFile) :: rest =>
      let '(config, sassOptions') := configure u sassOptions source outputFile in
      config :: configureAll u sassOptions' rest
  end.

End Setup.

(** [if (!base) base = this.src] of the returned build function, where
    [base] starts undefined. *)
Definition latchBase (base : option string) (src : string) : option string :=
  match base with
  | Some b => if String.eqb b "" then Some src else Some b
  | None => Some src
  end.

(** The number of times the compiler is run in a record of calls. *)
Definition renderCalls (calls : list event) : nat :=
  length (List.filter (fun ev => match ev with EvRender _ => true | _ => false end) calls).

Section Outcomes.
Context {P : PathLib}.
Variable rev : revision.
Variable w : World.

(** What a walk over a list of directories can end in. *)
Definition walkOutcome (arg importer : string) (dirs : list string)
           (r : outcome resolved) : Prop :=
  match r with
  | Ok found =>
      exists loadPath candidate,
        loadPath ∈ dirs /\ candidate ∈ candidates rev arg /\
        existsAt rev w (path_resolve loadPath candidate) = Some found /\
        file found = path_resolve loadPath candidate /\
        matchesIn rev w arg loadPath = [found]
  | Throw (Error message) =>
      message = notFoundMessage arg
      \/ exists loadPath first second more,
          loadPath ∈ dirs /\
          matchesIn rev w arg loadPath = first :: second :: more /\
          message = ambiguousMessage arg importer (map file (first :: second :: more))
  | Throw (FsError error) =>
      is_ENOENT error = false /\
      exists loadPath candidate,
        loadPath ∈ dirs /\ candidate ∈ candidates rev arg /\
        readFile w (path_resolve loadPath candidate) = ReadFail error /\
        inGraph rev w (path_resolve loadPath candidate) = false
  | Throw _ => False
  end.

End Outcomes.

(** * Properties *)

(** ** Strings *)

Section StringFacts.

Lemma app_nil (q : string) : "" +:+ q = q.
Proof. reflexivity. Qed.

Lemma app_cons (c : ascii) (p q : string) :
  String c p +:+ q = String c (p +:+ q).
Proof. reflexivity. Qed.

Lemma append_assoc (p q r : string) : (p +:+ q) +:+ r = p +:+ (q +:+ r).
Proof.
  induction p as [|c p IH]; [reflexivity|].
  rewrite !app_cons, IH. reflexivity.
Qed.

Lemma endsWith_refl (s : string) : endsWith s s = true.
Proof. destruct s; cbn [endsWith]; rewrite String.eqb_refl; reflexivity. Qed.

Lemma endsWith_cons (c : ascii) (s suffix : string) :
  endsWith s suffix = true -> endsWith (String c s) suffix = true.
Proof. intros H. cbn [endsWith]. rewrite H. apply orb_true_r. Qed.

Lemma endsWith_app (p suffix : string) : endsWith (p +:+ suffix) suffix = true.
Proof.
  induction p as [|c p IH].
  - apply endsWith_refl.
  - rewrite app_cons. apply endsWith_cons, IH.
Qed.

Lemma endsWith_inv (s suffix : string) :
  endsWith s suffix = true -> exists p, s = p +:+ suffix.
Proof.
  induction s as [|c s IH]; cbn [endsWith]; intros H.
  - rewrite orb_false_r in H. apply String.eqb_eq in H. subst.
    exists EmptyString. reflexivity.
  - apply orb_true_iff in H. destruct H as [H|H].
    + apply String.eqb_eq in H. exists EmptyString. exact H.
    + destruct (IH H) as [p ->]. exists (String c p). reflexivity.
Qed.

Lemma string_length_app (p q : string) :
  String.length (p +:+ q) = String.length p + String.length q.
Proof.
  induction p as [|c p IH].
  - reflexivity.
  - rewrite app_cons. cbn [String.length]. rewrite IH. reflexivity.
Qed.

Lemma substring_prefix (p q : string) :
  substring 0 (String.length p) (p +:+ q) = p.
Proof.
  induction p as [|c p IH].
  - rewrite app_nil. destruct q; reflexivity.
  - rewrite app_cons. cbn [String.length substring]. rewrite IH. reflexivity.
Qed.

Lemma dropEnd_app (p suffix : string) :
  dropEnd (String.length suffix) (p +:+ suffix) = p.
Proof.
  unfold dropEnd. rewrite string_length_app.
  replace (String.length p + String.length suffix - String.length suffix)
    with (String.length p) by lia.
  apply substring_prefix.
Qed.




End StringFacts.

(** The two revisions recognise the same extensions on a specifier. *)
Lemma hasExtension_iff (rev : revision) (arg : string) :
  hasExtension rev arg = true <->
  endsWith arg ".scss" = true \/ endsWith arg ".sass" = true.
Proof.
  destruct rev; unfold hasExtension, regex_test, regex_match.
  - rewrite orb_true_iff. tauto.
  - destruct (endsWith arg ".scss"), (endsWith arg ".sass"); simpl;
      intuition congruence.
Qed.

Lemma hasExtension_revisions (arg : string) :
  hasExtension RevIndex arg = hasExtension RevPart arg.
Proof.
  unfold hasExtension, regex_test, regex_match.
  destruct (endsWith arg ".scss"), (endsWith arg ".sass"); reflexivity.
Qed.

(** ** The existence check *)

Section CheckFacts.
Context {P : PathLib}.
Variable rev : revision.
Variable w : World.

(** The check of one candidate, in terms of the world. *)
Lemma checkCandidate_spec (loadPath candidate : string) :
  checkCandidate rev w loadPath candidate =
  (match readFailure rev w (path_resolve loadPath candidate) with
   | Some error => Throw (FsError error)
   | None => Ok (existsAt rev w (path_resolve loadPath candidate))
   end,
   [queryOf rev w (path_resolve loadPath candidate)]).
Proof.
  unfold checkCandidate, readFailure, existsAt, queryOf, inGraph.
  destruct (subdir (base rev w) (path_resolve loadPath candidate)).
  - destruct (truthy _); reflexivity.
  - destruct (readFile w _) as [b|e]; [reflexivity|].
    destruct (is_ENOENT e); reflexivity.
Qed.

(** [Promise.map] records the calls of every mapper. *)
Lemma promise_map_calls {A B} (f : A -> M B) (q : A -> event) (l : list A) :
  (forall x, snd (f x) = [q x]) ->
  snd (promise_map f l) = map q l.
Proof.
  intros Hq. induction l as [|x xs IH]; [reflexivity|].
  cbn [promise_map]. specialize (Hq x).
  destruct (f x) as [r l1]. destruct (promise_map f xs) as [rs l2].
  cbn [snd] in *. subst. reflexivity.
Qed.

(** When no mapper rejects, the results come back in order. *)
Lemma promise_map_ok {A B} (f : A -> M B) (g : A -> B) (l : list A) :
  Forall (fun x => fst (f x) = Ok (g x)) l ->
  fst (promise_map f l) = Ok (map g l).
Proof.
  induction 1 as [|x xs Hx _ IH]; [reflexivity|].
  cbn [promise_map].
  destruct (f x) as [r l1]. destruct (promise_map f xs) as [rs l2].
  cbn [fst] in *. subst. reflexivity.
Qed.

(** When a mapper rejects, the whole promise is rejected, with the
    error of one of the mappers. *)
Lemma promise_map_throw {A B} (f : A -> M B) (l : list A) :
  Exists (fun x => exists e, fst (f x) = Throw e) l ->
  exists x e, x ∈ l /\ fst (f x) = Throw e /\ fst (promise_map f l) = Throw e.
Proof.
  induction 1 as [x xs [e He]|x xs _ IH].
  - exists x, e. split; [apply list_elem_of_here|]. split; [exact He|].
    cbn [promise_map]. destruct (f x) as [r l1].
    destruct (promise_map f xs) as [rs l2]. cbn [fst] in *. subst. reflexivity.
  - destruct IH as (y & e & Hy & He & Hmap).
    cbn [promise_map]. destruct (f x) as [r l1] eqn:Hfx.
    destruct (promise_map f xs) as [rs l2]. cbn [fst] in *. subst.
    destruct r as [b|e'].
    + exists y, e. split; [apply list_elem_of_further, Hy|]. split; [exact He|reflexivity].
    + exists x, e'. split; [apply list_elem_of_here|]. rewrite Hfx. split; reflexivity.
Qed.

Lemma filter_truthy_map {A B C} (h : A -> B) (g : B -> option C) (l : list A) :
  filter_truthy (map (fun x => g (h x)) l) = omap g (map h l).
Proof.
  unfold filter_truthy. induction l as [|x xs IH]; [reflexivity|].
  simpl. destruct (g (h x)); [f_equal|]; exact IH.
Qed.

Lemma existingCandidates_calls (arg loadPath : string) :
  snd (existingCandidates rev w arg loadPath) = queriesIn rev w arg loadPath.
Proof.
  unfold existingCandidates, bind, queriesIn, fullCandidates.
  pose proof (promise_map_calls (checkCandidate rev w loadPath)
                (fun c => queryOf rev w (path_resolve loadPath c))
                (candidates rev arg)) as Hcalls.
  destruct (promise_map _ _) as [[found|e] l]; cbn [snd ret] in *;
    rewrite Hcalls; try (intros c; rewrite checkCandidate_spec; reflexivity).
  - rewrite app_nil_r, map_map. reflexivity.
  - rewrite map_map. reflexivity.
Qed.

(** A directory whose candidates can all be read yields the candidates
    that exist, in order. *)
Lemma existingCandidates_readable (arg loadPath : string) :
  readable rev w arg loadPath = true ->
  existingCandidates rev w arg loadPath =
  (Ok (matchesIn rev w arg loadPath), queriesIn rev w arg loadPath).
Proof.
  intros Hread.
  rewrite <- existingCandidates_calls.
  unfold existingCandidates, bind, matchesIn, fullCandidates, readable,
    fullCandidates in *.
  pose proof (promise_map_ok (checkCandidate rev w loadPath)
                (fun c => existsAt rev w (path_resolve loadPath c))
                (candidates rev arg)) as Hok.
  destruct (promise_map _ _) as [r l]. cbn [fst] in Hok.
  rewrite Hok.
  - cbn [ret snd]. rewrite app_nil_r. f_equal. f_equal.
    apply filter_truthy_map.
  - rewrite forallb_forall in Hread. apply List.Forall_forall.
    intros c Hc. rewrite checkCandidate_spec.
    specialize (Hread (path_resolve loadPath c) (in_map _ _ _ Hc)).
    destruct (readFailure rev w (path_resolve loadPath c)); [discriminate|reflexivity].
Qed.

End CheckFacts.

(** ** The walk over the search directories *)

Section WalkFacts.
Context {P : PathLib}.
Variable rev : revision.
Variable w : World.
Variable options : Options.

Lemma existsAt_file (candidate : string) (found : resolved) :
  existsAt rev w candidate = Some found -> file found = candidate.
Proof.
  unfold existsAt. destruct (inGraph rev w candidate).
  - destruct (truthy _); [|discriminate]. intros [= <-]. reflexivity.
  - destruct (readFile w candidate); [|discriminate]. intros [= <-]. reflexivity.
Qed.

(** The paths of the matches of a directory are its candidates that
    exist, in the order of the candidates. *)
Lemma matchesIn_files (arg loadPath : string) :
  map file (matchesIn rev w arg loadPath) =
  List.filter (fun candidate =>
                 match existsAt rev w candidate with Some _ => true | None => false end)
              (fullCandidates rev arg loadPath).
Proof.
  unfold matchesIn.
  induction (fullCandidates rev arg loadPath) as [|c cs IH]; [reflexivity|].
  simpl. destruct (existsAt rev w c) as [found|] eqn:Hc.
  - cbn [map]. rewrite (existsAt_file _ _ Hc). f_equal. exact IH.
  - exact IH.
Qed.

(** Directories without a match are passed over; the calls made for them
    are recorded. *)
Lemma tryLoadPaths_skip (arg importer : string) (before rest : list string) :
  forallb (emptyIn rev w arg) before = true ->
  tryLoadPaths rev w arg importer (before ++ rest) =
  (fst (tryLoadPaths rev w arg importer rest),
   (queriesOf rev w arg before ++ snd (tryLoadPaths rev w arg importer rest))%list).
Proof.
  induction before as [|d before IH]; intros Hempty.
  - cbn [app queriesOf flat_map]. destruct (tryLoadPaths _ _ _ _ rest); reflexivity.
  - cbn [forallb] in Hempty. apply andb_true_iff in Hempty as [Hd Hrest].
    unfold emptyIn in Hd. apply andb_true_iff in Hd as [Hread Hnone].
    rewrite <- app_comm_cons. cbn [tryLoadPaths].
    rewrite (existingCandidates_readable _ _ _ _ Hread).
    destruct (matchesIn rev w arg d); [|discriminate].
    cbn [bind]. rewrite (IH Hrest).
    cbn [queriesOf flat_map]. rewrite <- app_assoc. reflexivity.
Qed.

Lemma queriesOf_app (arg : string) (l1 l2 : list string) :
  queriesOf rev w arg (l1 ++ l2) = (queriesOf rev w arg l1 ++ queriesOf rev w arg l2)%list.
Proof. unfold queriesOf. apply flat_map_app. Qed.

Lemma queriesOf_single (arg loadPath : string) :
  queriesOf rev w arg [loadPath] = queriesIn rev w arg loadPath.
Proof. unfold queriesOf. cbn [flat_map]. apply app_nil_r. Qed.

(** The walk stops at the first directory with a match. *)
Lemma tryLoadPaths_stop (arg importer : string) (before : list string)
      (loadPath : string) (after : list string) :
  forallb (emptyIn rev w arg) before = true ->
  readable rev w arg loadPath = true ->
  matchesIn rev w arg loadPath <> [] ->
  tryLoadPaths rev w arg importer (before ++ loadPath :: after) =
  (match matchesIn rev w arg loadPath with
   | [found] => Ok found
   | existing => Throw (Error (ambiguousMessage arg importer (map file existing)))
   end,
   queriesOf rev w arg (before ++ [loadPath])).
Proof.
  intros Hempty Hread Hsome.
  rewrite (tryLoadPaths_skip _ _ _ _ Hempty).
  cbn [tryLoadPaths]. rewrite (existingCandidates_readable _ _ _ _ Hread).
  rewrite queriesOf_app, queriesOf_single.
  destruct (matchesIn rev w arg loadPath) as [|found [|found' more]];
    [congruence| |]; cbn [bind ret throw fst snd]; rewrite app_nil_r; reflexivity.
Qed.

(** ** C1 *)

(** C1. The search directories are the directory of the importing file
    followed by the configured load paths, and they are consulted in
    that order: when the directories before [loadPath] hold no candidate
    that exists and [loadPath] holds exactly one, the import resolves to
    that candidate, with its absolute path and its contents, and the only
    calls made are those for the directories up to [loadPath]; no call
    is made for the directories after it. *)
Theorem resolve_single_match
        (entryFile arg prev : string) (before : list string) (loadPath : string)
        (after : list string) (found : resolved) :
  path_isAbsolute (importingFile entryFile prev) = true ->
  searchPaths options (importingFile entryFile prev) = before ++ loadPath :: after ->
  forallb (emptyIn rev w arg) before = true ->
  readable rev w arg loadPath = true ->
  matchesIn rev w arg loadPath = [found] ->
  searchPaths options (importingFile entryFile prev) =
    path_dirname (importingFile entryFile prev) :: default [] (loadPaths options)
  /\ resolveImport rev w options entryFile arg prev =
     (Ok found, queriesOf rev w arg (before ++ [loadPath]))
  /\ exists candidate,
      candidate ∈ candidates rev arg /\
      file found = path_resolve loadPath candidate /\
      existsAt rev w (path_resolve loadPath candidate) = Some found.
Proof.
  intros Habs Hdirs Hempty Hread Hone.
  split; [unfold searchPaths; destruct (loadPaths options); reflexivity|].
  split.
  - unfold resolveImport. rewrite Habs. cbn [negb]. rewrite Hdirs.
    rewrite (tryLoadPaths_stop _ _ _ _ _ Hempty Hread); [|rewrite Hone; discriminate].
    rewrite Hone. reflexivity.
  - assert (Hin : found ∈ matchesIn rev w arg loadPath)
      by (rewrite Hone; apply list_elem_of_here).
    unfold matchesIn, fullCandidates in Hin.
    apply list_elem_of_omap in Hin as (p & Hp & Hfound).
    apply list_elem_of_fmap in Hp as (c & -> & Hc).
    exists c. split; [exact Hc|]. split; [|exact Hfound].
    exact (existsAt_file _ _ Hfound).
Qed.

(** ** C2 *)

(** C2. When the first directory that holds a candidate that exists holds
    two or more of them, the resolution fails with the ambiguity error,
    whose message names the specifier as written and the importing file
    and lists the paths of exactly the candidates of that directory that
    exist; this holds whatever the directories after it contain, and no
    call is made for them. *)
Theorem resolve_ambiguous
        (entryFile arg prev : string) (before : list string) (loadPath : string)
        (after : list string) (first second : resolved) (more : list resolved) :
  path_isAbsolute (importingFile entryFile prev) = true ->
  searchPaths options (importingFile entryFile prev) = before ++ loadPath :: after ->
  forallb (emptyIn rev w arg) before = true ->
  readable rev w arg loadPath = true ->
  matchesIn rev w arg loadPath = first :: second :: more ->
  resolveImport rev w options entryFile arg prev =
    (Throw (Error (ambiguousMessage arg (importingFile entryFile prev)
                     (map file (first :: second :: more)))),
     queriesOf rev w arg (before ++ [loadPath]))
  /\ map file (first :: second :: more) =
     List.filter (fun candidate =>
                    match existsAt rev w candidate with Some _ => true | None => false end)
                 (fullCandidates rev arg loadPath)
  /\ ambiguousMessage arg (importingFile entryFile prev)
       (map file (first :: second :: more)) =
     nl +:+ indent +:+ "It's not clear which file to import for '@import "
        +:+ dq +:+ arg +:+ dq +:+ "' in file "
        +:+ dq +:+ importingFile entryFile prev +:+ dq +:+ "."
     +:+ nl +:+ indent +:+ "Candidates:"
     +:+ nl +:+ indent
        +:+ String.concat nl (file first :: file second :: map file more)
     +:+ nl +:+ indent +:+ "Please delete or rename all but one of these files."
     +:+ nl +:+ "              ".
Proof.
  intros Habs Hdirs Hempty Hread Hmany. split; [|split].
  - unfold resolveImport. rewrite Habs. cbn [negb]. rewrite Hdirs.
    rewrite (tryLoadPaths_stop _ _ _ _ _ Hempty Hread); [|rewrite Hmany; discriminate].
    rewrite Hmany. reflexivity.
  - rewrite <- Hmany. apply matchesIn_files.
  - reflexivity.
Qed.

(** ** C3 *)

(** C3. When no search directory holds a candidate that exists, the
    resolution fails with the error whose message is
    [File to import not found or unreadable: ] followed by the specifier,
    after every directory has been consulted. *)
Theorem resolve_not_found (entryFile arg prev : string) :
  path_isAbsolute (importingFile entryFile prev) = true ->
  forallb (emptyIn rev w arg) (searchPaths options (importingFile entryFile prev)) = true ->
  resolveImport rev w options entryFile arg prev =
    (Throw (Error ("File to import not found or unreadable: " +:+ arg)),
     queriesOf rev w arg (searchPaths options (importingFile entryFile prev))).
Proof.
  intros Habs Hempty.
  unfold resolveImport. rewrite Habs. cbn [negb].
  rewrite <- (app_nil_r (searchPaths options (importingFile entryFile prev))) at 1.
  rewrite (tryLoadPaths_skip _ _ _ _ Hempty).
  cbn [tryLoadPaths throw fst snd]. rewrite app_nil_r. reflexivity.
Qed.

End WalkFacts.

(** [bar] is not in the directory of the entry file; the first load path
    holds [_bar.scss] only, and the second load path, which holds
    [bar.scss], is never looked at. *)
Lemma resolve_single_match_witness :
  resolveImport (P := Example.lib) RevPart Example.project
    (Example.projectOptions RevPart) "/proj/a/entry.scss" "bar" "stdin" =
  (Ok {| contents := "b{}"; file := "/lib/_bar.scss" |},
   [EvImportFile "a/_bar.scss"; EvImportFile "a/_bar.sass";
    EvImportFile "a/bar.scss"; EvImportFile "a/bar.sass";
    EvReadFile "/lib/_bar.scss"; EvReadFile "/lib/_bar.sass";
    EvReadFile "/lib/bar.scss"; EvReadFile "/lib/bar.sass"]).
Proof.
  exact (proj1 (proj2 (resolve_single_match (P := Example.lib) RevPart Example.project
           (Example.projectOptions RevPart) "/proj/a/entry.scss" "bar" "stdin"
           ["/proj/a"] "/lib" ["/vendor"]
           {| contents := "b{}"; file := "/lib/_bar.scss" |}
           eq_refl eq_refl eq_refl eq_refl eq_refl))).
Defined.

(** [dup] is both [_dup.scss] and [dup.scss] in the directory of the entry
    file; the second load path holds a single [dup.scss]. *)
Lemma resolve_ambiguous_witness :
  resolveImport (P := Example.lib) RevPart Example.project
    (Example.projectOptions RevPart) "/proj/a/entry.scss" "dup" "stdin" =
  (Throw (Error (ambiguousMessage "dup" "/proj/a/entry.scss"
                   ["/proj/a/_dup.scss"; "/proj/a/dup.scss"])),
   [EvImportFile "a/_dup.scss"; EvImportFile "a/_dup.sass";
    EvImportFile "a/dup.scss"; EvImportFile "a/dup.sass"]).
Proof.
  exact (proj1 (resolve_ambiguous (P := Example.lib) RevPart Example.project
           (Example.projectOptions RevPart) "/proj/a/entry.scss" "dup" "stdin"
           [] "/proj/a" ["/lib"; "/vendor"]
           {| contents := "d1"; file := "/proj/a/_dup.scss" |}
           {| contents := "d2"; file := "/proj/a/dup.scss" |} []
           eq_refl eq_refl eq_refl eq_refl eq_refl)).
Defined.

Lemma resolve_not_found_witness :
  resolveImport (P := Example.lib) RevIndex Example.project
    (Example.projectOptions RevIndex) "/__TRIP_SASS__/entry.scss" "_nothing.scss" "stdin" =
  (Throw (Error "File to import not found or unreadable: _nothing.scss"),
   [EvImportFile "_nothing.scss"; EvReadFile "/lib/_nothing.scss";
    EvReadFile "/vendor/_nothing.scss"]).
Proof.
  exact (resolve_not_found (P := Example.lib) RevIndex Example.project
           (Example.projectOptions RevIndex) "/__TRIP_SASS__/entry.scss"
           "_nothing.scss" "stdin" eq_refl eq_refl).
Defined.

(** ** Candidate generation *)

Section CandidateFacts.
Context {P : PathLib}.
Variable rev : revision.

(** ** C4 *)

(** C4. For a specifier whose base name does not start with [_] and
    that ends neither in [.scss] nor in [.sass], the candidates are, in
    this order: the partial with [.scss], the partial with [.sass], the
    specifier with [.scss], the specifier with [.sass]; every search
    directory is tried with exactly these four, resolved against it. *)
Theorem candidates_plain (arg loadPath : string) :
  hasUnderscore (path_basename arg) = false ->
  endsWith arg ".scss" = false ->
  endsWith arg ".sass" = false ->
  candidates rev arg =
    [path_join (path_dirname arg) ("_" +:+ path_basename arg +:+ ".scss");
     path_join (path_dirname arg) ("_" +:+ path_basename arg +:+ ".sass");
     arg +:+ ".scss";
     arg +:+ ".sass"]
  /\ fullCandidates rev arg loadPath =
    [path_resolve loadPath
       (path_join (path_dirname arg) ("_" +:+ path_basename arg +:+ ".scss"));
     path_resolve loadPath
       (path_join (path_dirname arg) ("_" +:+ path_basename arg +:+ ".sass"));
     path_resolve loadPath (arg +:+ ".scss");
     path_resolve loadPath (arg +:+ ".sass")].
Proof.
  intros Hunder Hscss Hsass.
  assert (Hext : hasExtension rev arg = false).
  { destruct (hasExtension rev arg) eqn:H; [|reflexivity].
    apply hasExtension_iff in H. destruct H; congruence. }
  unfold fullCandidates, candidates. rewrite Hunder, Hext. split; reflexivity.
Qed.

(** The candidates of a specifier that carries an extension and no
    partial marker. *)
Lemma candidates_with_extension (arg : string) :
  hasUnderscore (path_basename arg) = false ->
  hasExtension rev arg = true ->
  candidates rev arg = [path_join (path_dirname arg) ("_" +:+ path_basename arg); arg].
Proof. intros Hunder Hext. unfold candidates. rewrite Hunder, Hext. reflexivity. Qed.

End CandidateFacts.

Lemma candidates_plain_witness :
  fullCandidates (P := Example.lib) RevIndex "sub/foo" "/proj/a" =
  ["/proj/a/sub/_foo.scss"; "/proj/a/sub/_foo.sass";
   "/proj/a/sub/foo.scss"; "/proj/a/sub/foo.sass"].
Proof.
  exact (proj2 (candidates_plain (P := Example.lib) RevIndex "sub/foo" "/proj/a"
                  eq_refl eq_refl eq_refl)).
Defined.

(** ** The POSIX path functions keep the extension of a base name *)

Module PosixFacts.
Import Posix.

Lemma chars_app (a b : string) :
  list_ascii_of_string (a +:+ b) = list_ascii_of_string a ++ list_ascii_of_string b.
Proof.
  induction a as [|c a IH]; [reflexivity|].
  rewrite app_cons. cbn [list_ascii_of_string]. rewrite IH. reflexivity.
Qed.

Lemma string_of_app (l1 l2 : list ascii) :
  string_of_list_ascii (l1 ++ l2) = string_of_list_ascii l1 +:+ string_of_list_ascii l2.
Proof.
  induction l1 as [|c l1 IH]; [reflexivity|].
  cbn [app string_of_list_ascii]. rewrite IH. reflexivity.
Qed.

Lemma noSlash_chars (s : string) :
  noSlash s = true ->
  List.Forall (fun c => isSlash c = false) (list_ascii_of_string s).
Proof.
  induction s as [|c s IH]; cbn [noSlash list_ascii_of_string]; intros H.
  - constructor.
  - apply andb_true_iff in H as [Hc Hs]. constructor; [|exact (IH Hs)].
    destruct (isSlash c); [discriminate|reflexivity].
Qed.

Lemma takeWhile_app (l r : list ascii) :
  List.Forall (fun c => isSlash c = false) l ->
  takeWhile (fun c => negb (isSlash c)) (l ++ r) =
  l ++ takeWhile (fun c => negb (isSlash c)) r.
Proof.
  induction 1 as [|c l Hc _ IH]; [reflexivity|].
  cbn [app takeWhile]. rewrite Hc. cbn [negb]. rewrite IH. reflexivity.
Qed.

Lemma dropWhile_head (c : ascii) (l : list ascii) :
  isSlash c = false -> dropWhile isSlash (c :: l) = c :: l.
Proof. intros H. cbn [dropWhile]. rewrite H. reflexivity. Qed.

Lemma endsWith_trans (s b e : string) :
  endsWith s b = true -> endsWith b e = true -> endsWith s e = true.
Proof.
  intros Hs Hb.
  destruct (endsWith_inv _ _ Hs) as [p ->].
  destruct (endsWith_inv _ _ Hb) as [q ->].
  rewrite <- append_assoc. apply endsWith_app.
Qed.

(** The base name of a path that ends in an extension ends in it too. *)
Lemma basename_extension (p ext : string) (c : ascii) (ext' : string) :
  ext = String c ext' ->
  noSlash ext = true ->
  endsWith p ext = true ->
  endsWith (basename p) ext = true.
Proof.
  intros Hext Hno Hp.
  destruct (endsWith_inv _ _ Hp) as [stem ->].
  unfold basename. rewrite chars_app, rev_app_distr.
  pose proof (noSlash_chars _ Hno) as Hall.
  assert (Hrev : List.Forall (fun c => isSlash c = false)
                   (rev (list_ascii_of_string ext))).
  { apply List.Forall_forall. intros x Hx. apply List.in_rev in Hx.
    rewrite List.Forall_forall in Hall. exact (Hall x Hx). }
  destruct (rev (list_ascii_of_string ext)) as [|d l] eqn:Hl.
  - exfalso. apply (f_equal (@List.length ascii)) in Hl.
    rewrite List.length_rev in Hl. subst ext. discriminate Hl.
  - rewrite <- app_comm_cons.
    rewrite dropWhile_head by (inversion Hrev; assumption).
    rewrite app_comm_cons, (takeWhile_app _ _ Hrev).
    rewrite rev_app_distr, <- Hl, rev_involutive, string_of_app.
    rewrite string_of_list_ascii_of_string. apply endsWith_app.
Qed.

Lemma basename_noSlash (p : string) : noSlash (basename p) = true.
Proof.
  unfold basename.
  generalize (dropWhile isSlash (rev (list_ascii_of_string p))). intros l.
  assert (H : List.Forall (fun c => isSlash c = false)
                (rev (takeWhile (fun c => negb (isSlash c)) l))).
  { apply List.Forall_forall. intros x Hx. apply List.in_rev in Hx.
    induction l as [|c l IH]; [destruct Hx|].
    cbn [takeWhile] in Hx. destruct (isSlash c) eqn:Hc; [destruct Hx|].
    destruct Hx as [<-|Hx]; [exact Hc|exact (IH Hx)]. }
  induction H as [|c l' Hc _ IH]; [reflexivity|].
  cbn [string_of_list_ascii noSlash]. rewrite Hc, IH. reflexivity.
Qed.

Lemma split_nonempty (s : string) : split s <> [].
Proof.
  destruct s as [|c s]; cbn [split]; [discriminate|].
  destruct (Ascii.eqb c slash); [discriminate|].
  destruct (split s); discriminate.
Qed.

Lemma split_noSlash (b : string) : noSlash b = true -> split b = [b].
Proof.
  induction b as [|c b IH]; cbn [noSlash split]; intros H; [reflexivity|].
  apply andb_true_iff in H as [Hc Hb]. unfold isSlash in Hc.
  destruct (Ascii.eqb c slash); [discriminate|].
  rewrite (IH Hb). reflexivity.
Qed.

Lemma split_app_slash (d b : string) :
  noSlash b = true -> split (d +:+ "/" +:+ b) = split d ++ [b].
Proof.
  intros Hb. induction d as [|c d IH].
  - rewrite app_nil, app_cons, app_nil. cbn [split].
    change (Ascii.eqb "/" slash) with true. cbn iota.
    rewrite (split_noSlash _ Hb). reflexivity.
  - rewrite app_cons. cbn [split]. rewrite IH.
    destruct (Ascii.eqb c slash); [reflexivity|].
    pose proof (split_nonempty d) as Hne.
    destruct (split d) as [|seg segs]; [congruence|reflexivity].
Qed.

Lemma endsWith_slash_noSlash (b : string) :
  noSlash b = true -> endsWith b "/" = false.
Proof.
  induction b as [|c b IH]; cbn [noSlash endsWith]; intros H; [reflexivity|].
  apply andb_true_iff in H as [Hc Hb]. rewrite (IH Hb), orb_false_r.
  unfold isSlash in Hc. cbn [String.eqb]. fold slash.
  destruct (Ascii.eqb c slash); [discriminate|reflexivity].
Qed.

Lemma endsWith_slash_app (p : string) (c : ascii) (b : string) :
  noSlash (String c b) = true -> endsWith (p +:+ String c b) "/" = false.
Proof.
  intros Hb. induction p as [|d p IH].
  - rewrite app_nil. exact (endsWith_slash_noSlash _ Hb).
  - rewrite app_cons. cbn [endsWith]. rewrite IH, orb_false_r.
    cbn [String.eqb]. destruct (Ascii.eqb d "/"); [|reflexivity].
    destruct p; reflexivity.
Qed.

Lemma normalizeSegments_last (allowAboveRoot : bool) (segs : list string) (x : string) :
  normalizeSegments allowAboveRoot (segs ++ [String "_" x]) =
  normalizeSegments allowAboveRoot segs ++ [String "_" x].
Proof.
  unfold normalizeSegments. rewrite fold_left_app. cbn [fold_left].
  unfold pushSegment at 1. cbn [String.eqb Ascii.eqb Bool.eqb orb]. reflexivity.
Qed.

Lemma unsplit_last (segs : list string) (b : string) :
  exists pre, unsplit (segs ++ [b]) = pre +:+ b.
Proof.
  unfold unsplit. induction segs as [|seg segs [pre IH]].
  - exists "". reflexivity.
  - exists (seg +:+ "/" +:+ pre). cbn [app String.concat].
    destruct (segs ++ [b]) as [|y l] eqn:Hl.
    + destruct segs; discriminate Hl.
    + rewrite IH, !append_assoc. reflexivity.
Qed.

(** Normalising a path whose last segment is a partial name keeps that
    segment at the end. *)
Lemma normalize_last (q : string) (segs : list string) (x : string) :
  split q = segs ++ [String "_" x] ->
  endsWith q "/" = false ->
  endsWith (normalize q) (String "_" x) = true.
Proof.
  intros Hsplit Htrail. unfold normalize.
  destruct (String.eqb q "") eqn:Hq.
  - apply String.eqb_eq in Hq. subst q.
    destruct segs as [|seg [|seg' segs]]; cbn in Hsplit; congruence.
  - rewrite Htrail, Hsplit, normalizeSegments_last.
    destruct (unsplit_last (normalizeSegments (negb (isAbsolute q)) segs)
                (String "_" x)) as [pre ->].
    assert (Hne : String.eqb (pre +:+ String "_" x) "" = false)
      by (destruct pre; reflexivity).
    rewrite Hne. destruct (isAbsolute q).
    + rewrite <- append_assoc. apply endsWith_app.
    + apply endsWith_app.
Qed.

(** The partial sibling built by [join] ends in the partial name. *)
Lemma join_partial (d x : string) :
  noSlash x = true ->
  endsWith (join d ("_" +:+ x)) ("_" +:+ x) = true.
Proof.
  intros Hx. rewrite app_cons, app_nil.
  assert (Hb : noSlash (String "_" x) = true) by exact Hx.
  unfold join. destruct (String.eqb d "").
  - apply (normalize_last _ []); [exact (split_noSlash _ Hb)|].
    exact (endsWith_slash_noSlash _ Hb).
  - cbn [String.eqb]. apply (normalize_last _ (split d)).
    + exact (split_app_slash d _ Hb).
    + rewrite <- append_assoc. exact (endsWith_slash_app _ _ _ Hb).
Qed.

(** The partial sibling of a specifier with an extension carries the
    same extension. *)
Lemma partial_sibling_extension (arg ext : string) :
  ext = ".scss" \/ ext = ".sass" ->
  endsWith arg ext = true ->
  endsWith (join (dirname arg) ("_" +:+ basename arg)) ext = true.
Proof.
  intros Hext Harg.
  apply (endsWith_trans _ ("_" +:+ basename arg)).
  - apply join_partial, basename_noSlash.
  - rewrite app_cons, app_nil. apply endsWith_cons.
    destruct Hext as [-> | ->].
    + exact (basename_extension arg ".scss" "." "scss" eq_refl eq_refl Harg).
    + exact (basename_extension arg ".sass" "." "sass" eq_refl eq_refl Harg).
Qed.

End PosixFacts.

(** ** C5 *)

(** C5. For a specifier whose base name does not start with [_] and that
    ends in [.scss] or in [.sass], the candidates are, in this order, the
    partial sibling ([_] before the base name, in the directory of the
    specifier) and the specifier itself, whichever of the two extensions
    it carries; every search directory is tried with exactly these two.
    With the POSIX path functions the sibling ends in the extension of the
    specifier. *)
Theorem candidates_extension {P : PathLib} (rev : revision)
        (arg ext loadPath : string) :
  ext = ".scss" \/ ext = ".sass" ->
  endsWith arg ext = true ->
  hasUnderscore (path_basename arg) = false ->
  candidates rev arg =
    [path_join (path_dirname arg) ("_" +:+ path_basename arg); arg]
  /\ fullCandidates rev arg loadPath =
    [path_resolve loadPath (path_join (path_dirname arg) ("_" +:+ path_basename arg));
     path_resolve loadPath arg]
  /\ endsWith (Posix.join (Posix.dirname arg) ("_" +:+ Posix.basename arg)) ext = true.
Proof.
  intros Hext Harg Hunder.
  assert (Hhas : hasExtension rev arg = true).
  { apply hasExtension_iff. destruct Hext as [-> | ->]; [left|right]; exact Harg. }
  unfold fullCandidates. rewrite (candidates_with_extension rev arg Hunder Hhas).
  split; [reflexivity|]. split; [reflexivity|].
  exact (PosixFacts.partial_sibling_extension arg ext Hext Harg).
Qed.

Lemma candidates_extension_witness :
  fullCandidates (P := Example.lib) RevPart "sub/foo.sass" "/lib" =
  ["/lib/sub/_foo.sass"; "/lib/sub/foo.sass"].
Proof.
  exact (proj1 (proj2 (candidates_extension (P := Example.lib) RevPart
                         "sub/foo.sass" ".sass" "/lib"
                         (or_intror eq_refl) eq_refl eq_refl))).
Defined.

(** ** The existence check and the world *)

Section ExistenceFacts.
Context {P : PathLib}.
Variable rev : revision.
Variable w : World.

(** A read that fails for good rejects the check of the whole directory. *)
Lemma existingCandidates_fatal (arg loadPath candidate : string) (error : fs_error) :
  candidate ∈ candidates rev arg ->
  readFailure rev w (path_resolve loadPath candidate) = Some error ->
  exists candidate' error',
    candidate' ∈ candidates rev arg /\
    readFailure rev w (path_resolve loadPath candidate') = Some error' /\
    existingCandidates rev w arg loadPath =
      (Throw (FsError error'), queriesIn rev w arg loadPath).
Proof.
  intros Hin Hfail.
  destruct (promise_map_throw (checkCandidate rev w loadPath) (candidates rev arg))
    as (c' & e & Hc' & He & Hmap).
  { apply List.Exists_exists. exists candidate. split.
    - apply list_elem_of_In. exact Hin.
    - exists (FsError error). rewrite checkCandidate_spec, Hfail. reflexivity. }
  rewrite checkCandidate_spec in He. cbn [fst] in He.
  destruct (readFailure rev w (path_resolve loadPath c')) as [e'|] eqn:He';
    [|discriminate].
  injection He as <-.
  exists c', e'. split; [exact Hc'|]. split; [exact He'|].
  rewrite <- existingCandidates_calls.
  unfold existingCandidates, bind in *.
  destruct (promise_map _ _) as [r l]. cbn [fst] in Hmap. subst r. reflexivity.
Qed.

(** ** C6 *)

(** C6. The check of a candidate resolves it against the directory. When
    the absolute path lies under the root of the build graph, the one
    call made is [importFile] with the path relative to that root, and
    the disk is not read. Otherwise the one call made is the read of the
    absolute path from disk: a file that is read exists, a failure with
    code [ENOENT] means the candidate does not exist, and any other
    failure is thrown, and rejects the check of the directory, instead of
    counting as a candidate that does not exist. *)
Theorem existence_check (arg loadPath candidate : string) :
  (inGraph rev w (path_resolve loadPath candidate) = true ->
   checkCandidate rev w loadPath candidate =
   (Ok (existsAt rev w (path_resolve loadPath candidate)),
    [EvImportFile (path_relative (base rev w) (path_resolve loadPath candidate))]))
  /\ (inGraph rev w (path_resolve loadPath candidate) = false ->
      forall found, readFile w (path_resolve loadPath candidate) = ReadOk found ->
      checkCandidate rev w loadPath candidate =
      (Ok (Some {| contents := buffer_toString w found;
                   file := path_resolve loadPath candidate |}),
       [EvReadFile (path_resolve loadPath candidate)]))
  /\ (inGraph rev w (path_resolve loadPath candidate) = false ->
      forall error, readFile w (path_resolve loadPath candidate) = ReadFail error ->
      err_code error = Some "ENOENT" ->
      checkCandidate rev w loadPath candidate =
      (Ok None, [EvReadFile (path_resolve loadPath candidate)]))
  /\ (inGraph rev w (path_resolve loadPath candidate) = false ->
      forall error, readFile w (path_resolve loadPath candidate) = ReadFail error ->
      err_code error <> Some "ENOENT" ->
      checkCandidate rev w loadPath candidate =
      (Throw (FsError error), [EvReadFile (path_resolve loadPath candidate)])
      /\ (candidate ∈ candidates rev arg ->
          exists error',
            fst (existingCandidates rev w arg loadPath) = Throw (FsError error'))).
Proof.
  assert (Hfatal : forall error,
             inGraph rev w (path_resolve loadPath candidate) = false ->
             readFile w (path_resolve loadPath candidate) = ReadFail error ->
             err_code error <> Some "ENOENT" ->
             readFailure rev w (path_resolve loadPath candidate) = Some error).
  { intros error Hout Hread Hcode. unfold readFailure, is_ENOENT.
    rewrite Hout, Hread.
    destruct (err_code error) as [code|]; [|reflexivity].
    destruct (String.eqb code "ENOENT") eqn:Heq; [|reflexivity].
    apply String.eqb_eq in Heq. congruence. }
  split; [|split; [|split]].
  - intros Hin. rewrite checkCandidate_spec.
    unfold readFailure, queryOf. rewrite Hin. reflexivity.
  - intros Hout found Hread. rewrite checkCandidate_spec.
    unfold readFailure, existsAt, queryOf. rewrite Hout, Hread. reflexivity.
  - intros Hout error Hread Hcode. rewrite checkCandidate_spec.
    unfold readFailure, existsAt, queryOf, is_ENOENT.
    rewrite Hout, Hread, Hcode. reflexivity.
  - intros Hout error Hread Hcode.
    pose proof (Hfatal error Hout Hread Hcode) as Hfail. split.
    + rewrite checkCandidate_spec, Hfail. unfold queryOf. rewrite Hout. reflexivity.
    + intros Hin.
      destruct (existingCandidates_fatal arg loadPath candidate error Hin Hfail)
        as (c' & e' & _ & _ & Hthrow).
      exists e'. rewrite Hthrow. reflexivity.
Qed.

(** ** C10 *)

(** C10. For a candidate whose absolute path lies under the root of the
    build graph, when [importFile] returns nothing ([undefined], [null]
    or [false]) or the empty string, the candidate does not exist: the
    check answers [false] after the one call to [importFile], and makes
    no read from disk, whatever the disk holds at that path. *)
Theorem graph_miss_is_absent (loadPath candidate : string) :
  inGraph rev w (path_resolve loadPath candidate) = true ->
  importFile w (path_relative (base rev w) (path_resolve loadPath candidate))
    ∈ [CUndefined; CNull; CFalse; CString ""] ->
  checkCandidate rev w loadPath candidate =
    (Ok None,
     [EvImportFile (path_relative (base rev w) (path_resolve loadPath candidate))])
  /\ existsAt rev w (path_resolve loadPath candidate) = None
  /\ EvReadFile (path_resolve loadPath candidate)
       ∉ snd (checkCandidate rev w loadPath candidate).
Proof.
  intros Hin Hfalsy.
  assert (Hnone : existsAt rev w (path_resolve loadPath candidate) = None).
  { unfold existsAt. rewrite Hin.
    rewrite !elem_of_cons, elem_of_nil in Hfalsy.
    destruct Hfalsy as [H | [H | [H | [H | []]]]]; rewrite H; reflexivity. }
  assert (Hcheck : checkCandidate rev w loadPath candidate =
    (Ok None,
     [EvImportFile (path_relative (base rev w) (path_resolve loadPath candidate))])).
  { rewrite checkCandidate_spec. unfold readFailure, queryOf.
    rewrite Hin, Hnone. reflexivity. }
  split; [exact Hcheck|]. split; [exact Hnone|].
  rewrite Hcheck. cbn [snd]. intros Hmem.
  apply list_elem_of_singleton in Hmem. discriminate Hmem.
Qed.

End ExistenceFacts.

(** A candidate in the build graph, one read from disk, one missing on
    disk and one that cannot be read. *)
Lemma existence_check_witness :
  checkCandidate (P := Example.lib) RevPart Example.project "/proj/a" "_foo.scss" =
    (Ok (Some {| contents := "a{}"; file := "/proj/a/_foo.scss" |}),
     [EvImportFile "a/_foo.scss"])
  /\ checkCandidate (P := Example.lib) RevPart Example.project "/lib" "_bar.scss" =
    (Ok (Some {| contents := "b{}"; file := "/lib/_bar.scss" |}),
     [EvReadFile "/lib/_bar.scss"])
  /\ checkCandidate (P := Example.lib) RevPart Example.project "/lib" "none.scss" =
    (Ok None, [EvReadFile "/lib/none.scss"])
  /\ checkCandidate (P := Example.lib) RevPart Example.project "/lib" "locked.scss" =
    (Throw (FsError Example.EACCES), [EvReadFile "/lib/locked.scss"]).
Proof.
  split; [|split; [|split]].
  - exact (proj1 (existence_check (P := Example.lib) RevPart Example.project
                    "foo" "/proj/a" "_foo.scss") eq_refl).
  - exact (proj1 (proj2 (existence_check (P := Example.lib) RevPart Example.project
                           "bar" "/lib" "_bar.scss"))
             eq_refl (mkBuffer "b{}") eq_refl).
  - exact (proj1 (proj2 (proj2 (existence_check (P := Example.lib) RevPart
                                  Example.project "none" "/lib" "none.scss")))
             eq_refl Example.ENOENT eq_refl eq_refl).
  - refine (proj1 (proj2 (proj2 (proj2 (existence_check (P := Example.lib) RevPart
                                   Example.project "locked" "/lib" "locked.scss")))
              eq_refl Example.EACCES eq_refl _)).
    vm_compute. discriminate.
Defined.

(** [_blank.scss] is the empty string in the build graph and a file on
    disk: it does not exist for the import, and the disk is not read. *)
Lemma graph_miss_is_absent_witness :
  readFile Example.project "/proj/a/_blank.scss" = ReadOk (mkBuffer "on disk")
  /\ checkCandidate (P := Example.lib) RevPart Example.project "/proj/a" "_blank.scss" =
     (Ok None, [EvImportFile "a/_blank.scss"]).
Proof.
  split; [reflexivity|].
  refine (proj1 (graph_miss_is_absent (P := Example.lib) RevPart Example.project
                   "/proj/a" "_blank.scss" eq_refl _)).
  vm_compute. do 3 apply list_elem_of_further. apply list_elem_of_here.
Defined.

(** ** The build function *)

Section BuildFacts.
Context {P : PathLib}.
Variable rev : revision.
Variable w : World.
Variable options : Options.

(** ** C9 *)

(** C9. For an input file that is compiled as an entry (it passes the
    [include] filter and its base name does not start with [_]) and whose
    source is the empty string, the build function returns the object
    that maps the output file name to the empty string, and makes no
    call at all: the compiler is not run. *)
Theorem empty_source (file : string) (contents : Buffer) :
  micromatch_filter w (include options) file = true ->
  hasUnderscore (path_basename file) = false ->
  buffer_toString w contents = "" ->
  tripSass rev w options file contents =
    (Ok (Output {[ outputFileOf rev file := "" ]}), []).
Proof.
  intros Hincl Hunder Hsource. unfold tripSass.
  rewrite Hincl, Hunder, Hsource. reflexivity.
Qed.

(** Files that the filter excludes are handed back as they are, and
    partials give no output, before the source is looked at. *)
Lemma skipped_file (file : string) (contents : Buffer) :
  micromatch_filter w (include options) file = false ->
  tripSass rev w options file contents = (Ok (PassThrough contents), []).
Proof. intros H. unfold tripSass. rewrite H. reflexivity. Qed.

Lemma blocked_partial (file : string) (contents : Buffer) :
  micromatch_filter w (include options) file = true ->
  hasUnderscore (path_basename file) = true ->
  tripSass rev w options file contents = (Ok Blocked, []).
Proof. intros H1 H2. unfold tripSass. rewrite H1, H2. reflexivity. Qed.

(** The memos after a run are those of its answers. *)
Lemma render_memos (entryFile : string) (run : sass_run) (m : memos) :
  snd (fst (render rev w options entryFile run m)) =
  rememberAll rev (answers rev w options entryFile run) m.
Proof.
  revert m. induction run as [css|error|arg prev k IH]; intros m;
    [reflexivity|reflexivity|].
  cbn [render answers].
  destruct (resolveImport rev w options entryFile arg prev) as [answer l1].
  cbn [fst]. specialize (IH answer).
  destruct answer as [result|e].
  - specialize (IH (remember rev arg result m)).
    destruct (render rev w options entryFile (k (Ok result)) _) as [[r m''] l2].
    cbn [fst snd] in *. exact IH.
  - specialize (IH m).
    destruct (render rev w options entryFile (k (Throw e)) _) as [[r m''] l2].
    cbn [fst snd] in *. exact IH.
Qed.

(** An answer that no later answer replaces is remembered. *)
Lemma rememberAll_last (l1 l2 : list (string * outcome resolved))
      (arg : string) (result : resolved) (m : memos) :
  file result <> "__proto__" ->
  (forall arg' result', (arg', Ok result') ∈ l2 -> file result' <> file result) ->
  Memo.get (rememberedImportContents
              (rememberAll rev (l1 ++ (arg, Ok result) :: l2) m)) (file result) =
  VString (contents result).
Proof.
  intros Hproto Hlater. unfold rememberAll.
  rewrite fold_left_app. cbn [fold_left snd fst].
  generalize (fold_left
                (fun m a => match snd a with
                            | Ok result => remember rev (fst a) result m
                            | Throw _ => m
                            end) l1 m).
  intros m0.
  assert (Hnow : rememberedImportContents (remember rev arg result m0) !! file result
                 = Some (contents result)).
  { cbn [remember rememberedImportContents]. unfold Memo.set.
    destruct (String.eqb (file result) "__proto__") eqn:Heq.
    - apply String.eqb_eq in Heq. contradiction.
    - apply lookup_insert_eq. }
  revert Hnow. generalize (remember rev arg result m0). clear m0.
  induction l2 as [|[arg' answer] l2 IH]; intros m1 Hnow.
  - cbn [fold_left]. unfold Memo.get. rewrite Hnow. reflexivity.
  - cbn [fold_left snd fst]. apply IH.
    + intros a r Hin. apply (Hlater a r). apply list_elem_of_further, Hin.
    + destruct answer as [result'|e]; [|exact Hnow].
      cbn [remember rememberedImportContents]. unfold Memo.set.
      destruct (String.eqb (file result') "__proto__"); [exact Hnow|].
      rewrite lookup_insert_ne; [exact Hnow|].
      apply (Hlater arg' result'). apply list_elem_of_here.
Qed.

(** A path that no answer resolved to is not in the memo. *)
Lemma rememberAll_none (l : list (string * outcome resolved)) (m : memos)
      (token : string) :
  rememberedImportContents m !! token = None ->
  (forall arg result, (arg, Ok result) ∈ l -> file result <> token) ->
  rememberedImportContents (rememberAll rev l m) !! token = None.
Proof.
  unfold rememberAll. revert m.
  induction l as [|[arg answer] l IH]; intros m Hnone Hnot; [exact Hnone|].
  cbn [fold_left snd fst]. apply IH.
  - destruct answer as [result|e]; [|exact Hnone].
    cbn [remember rememberedImportContents]. unfold Memo.set.
    destruct (String.eqb (file result) "__proto__"); [exact Hnone|].
    rewrite lookup_insert_ne; [exact Hnone|].
    apply (Hnot arg result). apply list_elem_of_here.
  - intros a r Hin. apply (Hnot a r). apply list_elem_of_further, Hin.
Qed.

End BuildFacts.

(** ** The translation of a compile failure *)

Section TranslateFacts.
Context {P : PathLib}.
Variable rev : revision.
Variable w : World.
Variable options : Options.

(** ** C7 *)

(** C7, as the code has it. When the compiler fails on an entry file, the
    revision with [CodeError] throws a structured error that carries the
    first line of the raw message, the raw line and column, as file the
    absolute entry file when the token of the failure is [stdin] and the
    token itself otherwise, and as contents the source of the entry file
    when the token is [stdin] and otherwise what the memo of remembered
    contents holds for the token: the text remembered for the last import
    that resolved to that path, and nothing ([undefined], when the token
    is not the name of a member of [Object.prototype]) when no import
    resolved to it; no placeholder is put in place of the file.
    src/index.js throws the raw error of the compiler again. *)
Theorem compile_failure_translated
        (inputFile : string) (buffer : Buffer) (error : sass_error) :
  let source := buffer_toString w buffer in
  let entryFile := path_resolve (base rev w) inputFile in
  let asked := answers rev w options entryFile (sass_render w source) in
  let memo := rememberedImportContents (rememberAll rev asked (initialMemos rev entryFile)) in
  micromatch_filter w (include options) inputFile = true ->
  hasUnderscore (path_basename inputFile) = false ->
  String.eqb source "" = false ->
  fst (fst (render rev w options entryFile (sass_render w source)
              (initialMemos rev entryFile))) = inl error ->
  fst (tripSass rev w options inputFile buffer) =
    Throw (match rev with
           | RevIndex => SassError error
           | RevPart =>
               CodeError (firstLine (se_message error))
                 (if String.eqb (se_file error) "stdin"
                  then entryFile else se_file error)
                 (if String.eqb (se_file error) "stdin"
                  then VString source else Memo.get memo (se_file error))
                 (se_line error) (se_column error)
           end)
  /\ (forall l1 arg result l2,
         asked = l1 ++ (arg, Ok result) :: l2 ->
         se_file error = file result ->
         file result <> "__proto__" ->
         (forall arg' result', (arg', Ok result') ∈ l2 -> file result' <> file result) ->
         Memo.get memo (se_file error) = VString (contents result))
  /\ ((forall arg result, (arg, Ok result) ∈ asked -> file result <> se_file error) ->
      Memo.get memo (se_file error) =
      if Memo.inherited (se_file error)
      then VObjectPrototype (se_file error) else VUndefined).
Proof.
  intros source entryFile asked memo Hincl Hunder Hsource Hfail.
  split; [|split].
  - unfold tripSass. rewrite Hincl, Hunder. fold source. rewrite Hsource.
    cbn [negb]. fold entryFile.
    pose proof (render_memos rev w options entryFile (sass_render w source)
                  (initialMemos rev entryFile)) as Hmemo.
    destruct (render rev w options entryFile (sass_render w source)
                (initialMemos rev entryFile)) as [[r m] calls].
    cbn [fst snd] in Hfail, Hmemo. subst r. cbn [fst].
    unfold translateError. destruct rev; [reflexivity|].
    subst m. reflexivity.
  - intros l1 arg result l2 Hasked Htoken Hproto Hlater.
    subst memo. rewrite Hasked, Htoken.
    apply rememberAll_last; assumption.
  - intros Hnone. subst memo. unfold Memo.get.
    rewrite rememberAll_none; [reflexivity| |exact Hnone].
    unfold initialMemos. cbn [rememberedImportContents]. apply lookup_empty.
Qed.

End TranslateFacts.

(** An entry file with an empty source, under both revisions. *)
Lemma empty_source_witness :
  tripSass (P := Example.lib) RevPart Example.project (defaults RevPart)
    "css/main.sass" (mkBuffer "") = (Ok (Output {[ "css/main.css" := "" ]}), [])
  /\ tripSass (P := Example.lib) RevIndex Example.project (defaults RevIndex)
    "css/main.scss" (mkBuffer "") = (Ok (Output {[ "css/main.css" := "" ]}), []).
Proof.
  split.
  - exact (empty_source (P := Example.lib) RevPart Example.project (defaults RevPart)
             "css/main.sass" (mkBuffer "") eq_refl eq_refl eq_refl).
  - exact (empty_source (P := Example.lib) RevIndex Example.project (defaults RevIndex)
             "css/main.scss" (mkBuffer "") eq_refl eq_refl eq_refl).
Defined.

(** The compiler imports [foo], which resolves to the partial in the build
    graph, and fails in it: the error carries the first line of the
    message, the path of the partial and its remembered text. *)
Lemma compile_failure_translated_witness :
  fst (tripSass (P := Example.lib) RevPart Example.project (defaults RevPart)
         "a/entry.scss" (mkBuffer "@import 'foo';")) =
  Throw (CodeError "Invalid CSS after a" "/proj/a/_foo.scss" (VString "a{}") 1 2).
Proof.
  exact (proj1 (compile_failure_translated (P := Example.lib) RevPart Example.project
                  (defaults RevPart) "a/entry.scss" (mkBuffer "@import 'foo';")
                  (mkSassError ("Invalid CSS after a" +:+ nl +:+ "  in mixin")
                               "/proj/a/_foo.scss" 1 2)
                  eq_refl eq_refl eq_refl eq_refl)).
Defined.

(** The compiler fails in a file that no import resolved to: the error of
    the revision with [CodeError] names that file as it is, with no
    contents, and not the placeholder; src/index.js throws the raw error,
    which is no translated error at all. *)
Lemma compile_failure_translated_counterexample :
  fst (tripSass (P := Example.lib) RevPart Example.elsewhere (defaults RevPart)
         "a/entry.scss" (mkBuffer "a { b: c }")) =
    Throw (CodeError "boom" "/elsewhere/x.scss" VUndefined 3 4)
  /\ ~ (exists message text line column,
           fst (tripSass (P := Example.lib) RevPart Example.elsewhere (defaults RevPart)
                  "a/entry.scss" (mkBuffer "a { b: c }")) =
           Throw (CodeError message (unknownFile "/elsewhere/x.scss") text line column))
  /\ fst (tripSass (P := Example.lib) RevIndex Example.elsewhere (defaults RevIndex)
            "a/entry.scss" (mkBuffer "a { b: c }")) =
    Throw (SassError (mkSassError "boom" "/elsewhere/x.scss" 3 4))
  /\ reportedFile (SassError (mkSassError "boom" "/elsewhere/x.scss" 3 4)) = None.
Proof.
  split; [vm_compute; reflexivity|]. split; [|split; vm_compute; reflexivity].
  intros (message & text & line & column & H).
  vm_compute in H. discriminate H.
Qed.

(** ** The default [include] pattern and the output file name *)

Module GlobFacts.
Import Glob.










Section Suffix.
(** The tokens after [**/*] and a text they accept. *)
Variable ts : list token.
Variable suffix : string.
Hypothesis suffix_accepted : matches ts suffix = true.
Hypothesis suffix_noSlash : Posix.noSlash suffix = true.
Hypothesis suffix_nonempty : suffix <> "".





(** The tokens accept nothing but texts that end in the suffix. *)
Hypothesis only_suffix : forall s, matches ts s = true -> endsWith s suffix = true.





End Suffix.

End GlobFacts.

Section OutputFacts.




End OutputFacts.

(** ** C8 *)




(** * Further properties of the import hook *)

Section HookFacts.
Context {P : PathLib}.
Variable rev : revision.
Variable w : World.
Variable options : Options.

Lemma readable_false (arg loadPath : string) :
  readable rev w arg loadPath = false ->
  exists candidate error,
    candidate ∈ candidates rev arg /\
    readFailure rev w (path_resolve loadPath candidate) = Some error.
Proof.
  unfold readable, fullCandidates. intros H.
  induction (candidates rev arg) as [|c cs IH]; [discriminate H|].
  cbn [map forallb] in H.
  destruct (readFailure rev w (path_resolve loadPath c)) as [e|] eqn:Hc.
  - exists c, e. split; [apply list_elem_of_here|exact Hc].
  - destruct (IH H) as (c' & e & Hin & He).
    exists c', e. split; [apply list_elem_of_further, Hin|exact He].
Qed.

Lemma readFailure_fatal (candidate : string) (error : fs_error) :
  readFailure rev w candidate = Some error ->
  inGraph rev w candidate = false /\
  readFile w candidate = ReadFail error /\
  is_ENOENT error = false.
Proof.
  unfold readFailure. destruct (inGraph rev w candidate); [discriminate|].
  destruct (readFile w candidate) as [b|e]; [discriminate|].
  destruct (is_ENOENT e) eqn:He; [discriminate|]. intros [= <-]. auto.
Qed.

(** The check of a directory, whatever the world holds. *)
Lemma existingCandidates_cases (arg loadPath : string) :
  existingCandidates rev w arg loadPath =
    (Ok (matchesIn rev w arg loadPath), queriesIn rev w arg loadPath)
  \/ exists candidate error,
      candidate ∈ candidates rev arg /\
      readFailure rev w (path_resolve loadPath candidate) = Some error /\
      existingCandidates rev w arg loadPath =
        (Throw (FsError error), queriesIn rev w arg loadPath).
Proof.
  destruct (readable rev w arg loadPath) eqn:Hread.
  - left. exact (existingCandidates_readable rev w arg loadPath Hread).
  - right. destruct (readable_false arg loadPath Hread) as (c & e & Hin & He).
    exact (existingCandidates_fatal rev w arg loadPath c e Hin He).
Qed.

Lemma matchesIn_elem (arg loadPath : string) (found : resolved) :
  found ∈ matchesIn rev w arg loadPath ->
  exists candidate,
    candidate ∈ candidates rev arg /\
    existsAt rev w (path_resolve loadPath candidate) = Some found /\
    file found = path_resolve loadPath candidate.
Proof.
  unfold matchesIn, fullCandidates. intros Hin.
  apply list_elem_of_omap in Hin as (p & Hp & Hfound).
  apply list_elem_of_fmap in Hp as (c & -> & Hc).
  exists c. split; [exact Hc|]. split; [exact Hfound|].
  exact (existsAt_file rev w _ _ Hfound).
Qed.

Lemma walkOutcome_cons (arg importer loadPath : string) (dirs : list string)
      (r : outcome resolved) :
  walkOutcome rev w arg importer dirs r ->
  walkOutcome rev w arg importer (loadPath :: dirs) r.
Proof.
  destruct r as [found|[message| |error| |]]; cbn [walkOutcome]; try tauto.
  - intros (d & c & Hd & H). exists d, c. split; [apply list_elem_of_further, Hd|exact H].
  - intros [H|(d & a & b & l & Hd & H)]; [left; exact H|right].
    exists d, a, b, l. split; [apply list_elem_of_further, Hd|exact H].
  - intros [He (d & c & Hd & H)]. split; [exact He|].
    exists d, c. split; [apply list_elem_of_further, Hd|exact H].
Qed.

(** Every walk consults a prefix of the directories, and ends in one of
    the outcomes above. *)
Lemma tryLoadPaths_cases (arg importer : string) (dirs : list string) :
  exists n,
    n <= length dirs /\ (dirs <> [] -> 1 <= n) /\
    snd (tryLoadPaths rev w arg importer dirs) = queriesOf rev w arg (take n dirs) /\
    walkOutcome rev w arg importer dirs (fst (tryLoadPaths rev w arg importer dirs)).
Proof.
  induction dirs as [|d dirs IH].
  - exists 0. cbn [tryLoadPaths throw fst snd walkOutcome length take].
    split; [lia|]. split; [congruence|]. split; [reflexivity|left; reflexivity].
  - cbn [tryLoadPaths].
    destruct (existingCandidates_cases arg d) as [Hok|(c & e & Hc & He & Hthrow)].
    + rewrite Hok. cbn [bind].
      destruct (matchesIn rev w arg d) as [|found [|second more]] eqn:Hm.
      * destruct IH as (n & Hn & _ & Hcalls & Hout).
        exists (S n). cbn [length take]. split; [lia|]. split; [lia|].
        destruct (tryLoadPaths rev w arg importer dirs) as [r l].
        cbn [fst snd] in *. rewrite Hcalls. split; [reflexivity|].
        apply walkOutcome_cons, Hout.
      * exists 1. cbn [length take ret fst snd]. split; [lia|]. split; [lia|].
        split; [unfold queriesOf; cbn [flat_map]; reflexivity|].
        cbn [walkOutcome].
        destruct (matchesIn_elem arg d found) as (c & Hc & Hex & Hfile).
        { rewrite Hm. apply list_elem_of_here. }
        exists d, c. split; [apply list_elem_of_here|]. auto.
      * exists 1. cbn [length take throw fst snd]. split; [lia|]. split; [lia|].
        split; [unfold queriesOf; cbn [flat_map]; reflexivity|].
        cbn [walkOutcome]. right. exists d, found, second, more.
        split; [apply list_elem_of_here|]. split; [exact Hm|reflexivity].
    + rewrite Hthrow. cbn [bind]. exists 1.
      cbn [length take fst snd]. split; [lia|]. split; [lia|].
      split; [unfold queriesOf; cbn [flat_map]; rewrite app_nil_r; reflexivity|].
      cbn [walkOutcome]. destruct (readFailure_fatal _ _ He) as (Hout & Hread & Hfatal).
      split; [exact Hfatal|]. exists d, c. split; [apply list_elem_of_here|]. auto.
Qed.

End HookFacts.

Section HookProperties.
Context {P : PathLib}.
Variable rev : revision.
Variable w : World.
Variable options : Options.

(** X1. A resolution that succeeds returns a file that exists: its path is
    a candidate of the specifier resolved against one of the search
    directories, its contents are what the build graph or the disk holds
    at that path, and it is the only candidate of that directory that
    exists. *)
Theorem resolve_sound (entryFile arg prev : string) (found : resolved) :
  fst (resolveImport rev w options entryFile arg prev) = Ok found ->
  exists loadPath candidate,
    loadPath ∈ searchPaths options (importingFile entryFile prev) /\
    candidate ∈ candidates rev arg /\
    file found = path_resolve loadPath candidate /\
    existsAt rev w (file found) = Some found /\
    matchesIn rev w arg loadPath = [found].
Proof.
  unfold resolveImport.
  destruct (path_isAbsolute (importingFile entryFile prev)); cbn [negb];
    [|discriminate].
  intros Hok.
  destruct (tryLoadPaths_cases rev w arg (importingFile entryFile prev)
              (searchPaths options (importingFile entryFile prev)))
    as (n & _ & _ & _ & Hout).
  rewrite Hok in Hout. cbn [walkOutcome] in Hout.
  destruct Hout as (d & c & Hd & Hc & Hex & Hfile & Hone).
  exists d, c. rewrite Hfile. auto.
Qed.

(** X2. The errors of a resolution. A read error it throws is a failure
    of the read of a candidate outside the build graph, and its code is
    never [ENOENT]; an [Error] it throws carries the not-found message or
    the ambiguity message of a search directory with several candidates
    that exist; the only other failure is the assertion on an importing
    file that is not absolute. *)
Theorem resolve_failure_kinds (entryFile arg prev : string) (e : js_error) :
  fst (resolveImport rev w options entryFile arg prev) = Throw e ->
  match e with
  | FsError error =>
      err_code error <> Some "ENOENT" /\
      exists loadPath candidate,
        loadPath ∈ searchPaths options (importingFile entryFile prev) /\
        candidate ∈ candidates rev arg /\
        inGraph rev w (path_resolve loadPath candidate) = false /\
        readFile w (path_resolve loadPath candidate) = ReadFail error
  | Error message =>
      message = "File to import not found or unreadable: " +:+ arg
      \/ exists loadPath first second more,
          loadPath ∈ searchPaths options (importingFile entryFile prev) /\
          matchesIn rev w arg loadPath = first :: second :: more /\
          message = ambiguousMessage arg (importingFile entryFile prev)
                      (map file (first :: second :: more))
  | AssertionError => path_isAbsolute (importingFile entryFile prev) = false
  | SassError _ | CodeError _ _ _ _ _ => False
  end.
Proof.
  unfold resolveImport.
  destruct (path_isAbsolute (importingFile entryFile prev)) eqn:Habs; cbn [negb].
  - intros Hthrow.
    destruct (tryLoadPaths_cases rev w arg (importingFile entryFile prev)
                (searchPaths options (importingFile entryFile prev)))
      as (n & _ & _ & _ & Hout).
    rewrite Hthrow in Hout. cbn [walkOutcome] in Hout.
    destruct e as [message| |error|se|m f c l k];
      [exact Hout|destruct Hout| |exact Hout|exact Hout].
    destruct Hout as (Hfatal & d & c & Hd & Hc & Hread & Hgraph). split.
    + intros Hcode. unfold is_ENOENT in Hfatal. rewrite Hcode in Hfatal.
      discriminate Hfatal.
    + exists d, c. auto.
  - cbn [throw fst]. intros [= <-]. reflexivity.
Qed.

Lemma candidates_length (arg : string) :
  1 <= length (candidates rev arg) <= 4.
Proof.
  unfold candidates.
  destruct (negb (hasUnderscore (path_basename arg))), (hasExtension rev arg);
    cbn [length]; lia.
Qed.

Lemma queriesOf_length (arg : string) (dirs : list string) :
  length (queriesOf rev w arg dirs) = length dirs * length (candidates rev arg).
Proof.
  unfold queriesOf. induction dirs as [|d dirs IH]; [reflexivity|].
  cbn [flat_map length]. rewrite List.length_app, IH.
  unfold queriesIn, fullCandidates. rewrite !List.length_map. lia.
Qed.

(** X3. The calls of a resolution are those for the first [n] search
    directories, for some [n] of at least one: the directory of the
    importing file is always looked at, a directory is looked at with all
    its candidates or not at all, and no more than four calls are made for
    each search directory. *)
Theorem resolve_calls_prefix (entryFile arg prev : string) :
  path_isAbsolute (importingFile entryFile prev) = true ->
  exists n,
    1 <= n <= length (searchPaths options (importingFile entryFile prev)) /\
    snd (resolveImport rev w options entryFile arg prev) =
      queriesOf rev w arg (take n (searchPaths options (importingFile entryFile prev))) /\
    length (snd (resolveImport rev w options entryFile arg prev)) =
      n * length (candidates rev arg) /\
    length (snd (resolveImport rev w options entryFile arg prev)) <=
      4 * length (searchPaths options (importingFile entryFile prev)).
Proof.
  intros Habs. unfold resolveImport. rewrite Habs. cbn [negb].
  destruct (tryLoadPaths_cases rev w arg (importingFile entryFile prev)
              (searchPaths options (importingFile entryFile prev)))
    as (n & Hn & Hpos & Hcalls & _).
  exists n. split; [split; [apply Hpos; discriminate|exact Hn]|].
  split; [exact Hcalls|]. rewrite Hcalls, queriesOf_length, length_take.
  pose proof (candidates_length arg). split; [f_equal; lia|nia].
Qed.

End HookProperties.

Lemma resolve_sound_witness :
  exists loadPath candidate,
    loadPath ∈ searchPaths (P := Example.lib) (Example.projectOptions RevPart)
                 "/proj/a/entry.scss" /\
    candidate ∈ candidates (P := Example.lib) RevPart "bar" /\
    "/lib/_bar.scss" = path_resolve (PathLib := Example.lib) loadPath candidate /\
    existsAt (P := Example.lib) RevPart Example.project "/lib/_bar.scss" =
      Some {| contents := "b{}"; file := "/lib/_bar.scss" |} /\
    matchesIn (P := Example.lib) RevPart Example.project "bar" loadPath =
      [{| contents := "b{}"; file := "/lib/_bar.scss" |}].
Proof.
  exact (resolve_sound (P := Example.lib) RevPart Example.project
           (Example.projectOptions RevPart) "/proj/a/entry.scss" "bar" "stdin"
           {| contents := "b{}"; file := "/lib/_bar.scss" |} eq_refl).
Defined.

(** [locked.scss] cannot be read in the first load path. *)
Lemma resolve_failure_kinds_witness :
  err_code Example.EACCES <> Some "ENOENT" /\
  exists loadPath candidate,
    loadPath ∈ searchPaths (P := Example.lib) (Example.projectOptions RevPart)
                 "/proj/a/entry.scss" /\
    candidate ∈ candidates (P := Example.lib) RevPart "locked" /\
    inGraph (P := Example.lib) RevPart Example.project
      (path_resolve (PathLib := Example.lib) loadPath candidate) = false /\
    readFile Example.project (path_resolve (PathLib := Example.lib) loadPath candidate) =
      ReadFail Example.EACCES.
Proof.
  exact (resolve_failure_kinds (P := Example.lib) RevPart Example.project
           (Example.projectOptions RevPart) "/proj/a/entry.scss" "locked" "stdin"
           (FsError Example.EACCES) eq_refl).
Defined.

Lemma resolve_calls_prefix_witness :
  exists n,
    1 <= n <= 3 /\
    snd (resolveImport (P := Example.lib) RevPart Example.project
           (Example.projectOptions RevPart) "/proj/a/entry.scss" "bar" "stdin") =
      queriesOf (P := Example.lib) RevPart Example.project "bar"
        (take n ["/proj/a"; "/lib"; "/vendor"]) /\
    length (snd (resolveImport (P := Example.lib) RevPart Example.project
                   (Example.projectOptions RevPart) "/proj/a/entry.scss" "bar" "stdin")) =
      n * 4 /\
    length (snd (resolveImport (P := Example.lib) RevPart Example.project
                   (Example.projectOptions RevPart) "/proj/a/entry.scss" "bar" "stdin")) <=
      4 * 3.
Proof.
  exact (resolve_calls_prefix (P := Example.lib) RevPart Example.project
           (Example.projectOptions RevPart) "/proj/a/entry.scss" "bar" "stdin" eq_refl).
Defined.

Section HookProperties2.
Context {P : PathLib}.
Variable rev : revision.
Variable w : World.
Variable options : Options.

Lemma queriesOf_elem (arg : string) (dirs : list string) (ev : event) :
  ev ∈ queriesOf rev w arg dirs ->
  exists loadPath candidate,
    loadPath ∈ dirs /\ candidate ∈ candidates rev arg /\
    ev = queryOf rev w (path_resolve loadPath candidate).
Proof.
  unfold queriesOf, queriesIn, fullCandidates. intros Hin.
  apply list_elem_of_In, in_flat_map in Hin as (d & Hd & Hev).
  apply in_map_iff in Hev as (p & <- & Hp).
  apply in_map_iff in Hp as (c & <- & Hc).
  exists d, c. split; [apply list_elem_of_In, Hd|].
  split; [apply list_elem_of_In, Hc|reflexivity].
Qed.

(** X4. The calls of a resolution respect the build graph: every read
    from disk is for a candidate path that does not lie under the root of
    the build graph, every call to [importFile] is for a candidate path
    that lies under it, by its path relative to the root, and the
    compiler is never run. *)
Theorem resolve_calls_respect_graph (entryFile arg prev : string) (ev : event) :
  ev ∈ snd (resolveImport rev w options entryFile arg prev) ->
  exists loadPath candidate,
    loadPath ∈ searchPaths options (importingFile entryFile prev) /\
    candidate ∈ candidates rev arg /\
    match ev with
    | EvReadFile absolutePath =>
        absolutePath = path_resolve loadPath candidate /\
        inGraph rev w absolutePath = false
    | EvImportFile relativePath =>
        relativePath = path_relative (base rev w) (path_resolve loadPath candidate) /\
        inGraph rev w (path_resolve loadPath candidate) = true
    | EvRender _ => False
    end.
Proof.
  unfold resolveImport.
  destruct (path_isAbsolute (importingFile entryFile prev)); cbn [negb].
  - destruct (tryLoadPaths_cases rev w arg (importingFile entryFile prev)
                (searchPaths options (importingFile entryFile prev)))
      as (n & _ & _ & Hcalls & _).
    rewrite Hcalls. intros Hin.
    destruct (queriesOf_elem _ _ _ Hin) as (d & c & Hd & Hc & ->).
    exists d, c. split; [exact (subseteq_take _ _ _ Hd)|]. split; [exact Hc|].
    unfold queryOf. destruct (inGraph rev w (path_resolve d c)) eqn:Hg; auto.
  - cbn [throw snd]. intros Hin. apply elem_of_nil in Hin. destruct Hin.
Qed.

(** X5. A read that fails for good aborts the resolution: when the
    directories before [loadPath] are empty and a candidate of [loadPath]
    cannot be read, the resolution throws the error of such a read, after
    the calls for the directories up to [loadPath], whether or not other
    candidates exist in [loadPath] or in the directories after it. *)
Theorem fatal_read_aborts
        (entryFile arg prev : string) (before : list string) (loadPath : string)
        (after : list string) :
  path_isAbsolute (importingFile entryFile prev) = true ->
  searchPaths options (importingFile entryFile prev) = before ++ loadPath :: after ->
  forallb (emptyIn rev w arg) before = true ->
  readable rev w arg loadPath = false ->
  exists candidate error,
    candidate ∈ candidates rev arg /\
    readFailure rev w (path_resolve loadPath candidate) = Some error /\
    resolveImport rev w options entryFile arg prev =
      (Throw (FsError error), queriesOf rev w arg (before ++ [loadPath])).
Proof.
  intros Habs Hdirs Hempty Hread.
  destruct (readable_false rev w arg loadPath Hread) as (c0 & e0 & Hc0 & He0).
  destruct (existingCandidates_fatal rev w arg loadPath c0 e0 Hc0 He0)
    as (c & e & Hc & He & Hthrow).
  exists c, e. split; [exact Hc|]. split; [exact He|].
  unfold resolveImport. rewrite Habs. cbn [negb]. rewrite Hdirs.
  rewrite (tryLoadPaths_skip rev w arg _ before (loadPath :: after) Hempty).
  cbn [tryLoadPaths]. rewrite Hthrow. cbn [bind fst snd].
  rewrite queriesOf_app, queriesOf_single. reflexivity.
Qed.

End HookProperties2.

Lemma resolve_calls_respect_graph_witness :
  exists loadPath candidate,
    loadPath ∈ searchPaths (P := Example.lib) (Example.projectOptions RevPart)
                 "/proj/a/entry.scss" /\
    candidate ∈ candidates (P := Example.lib) RevPart "bar" /\
    "/lib/_bar.scss" = path_resolve (PathLib := Example.lib) loadPath candidate /\
    inGraph (P := Example.lib) RevPart Example.project "/lib/_bar.scss" = false.
Proof.
  refine (resolve_calls_respect_graph (P := Example.lib) RevPart Example.project
            (Example.projectOptions RevPart) "/proj/a/entry.scss" "bar" "stdin"
            (EvReadFile "/lib/_bar.scss") _).
  vm_compute. do 4 apply list_elem_of_further. apply list_elem_of_here.
Defined.

Lemma fatal_read_aborts_witness :
  exists candidate error,
    candidate ∈ candidates (P := Example.lib) RevPart "locked" /\
    readFailure (P := Example.lib) RevPart Example.project
      (path_resolve (PathLib := Example.lib) "/lib" candidate) = Some error /\
    resolveImport (P := Example.lib) RevPart Example.project
      (Example.projectOptions RevPart) "/proj/a/entry.scss" "locked" "stdin" =
    (Throw (FsError error),
     queriesOf (P := Example.lib) RevPart Example.project "locked" ["/proj/a"; "/lib"]).
Proof.
  exact (fatal_read_aborts (P := Example.lib) RevPart Example.project
           (Example.projectOptions RevPart) "/proj/a/entry.scss" "locked" "stdin"
           ["/proj/a"] "/lib" ["/vendor"] eq_refl eq_refl eq_refl eq_refl).
Defined.

Section Revisions.
Context {P : PathLib}.
Variable w : World.
Variable options : Options.

Lemma candidates_revisions (arg : string) :
  candidates RevIndex arg = candidates RevPart arg.
Proof. unfold candidates. rewrite hasExtension_revisions. reflexivity. Qed.

Lemma tryLoadPaths_revisions (arg importer : string) (dirs : list string) :
  this_src w = fakeBase w ->
  tryLoadPaths RevIndex w arg importer dirs = tryLoadPaths RevPart w arg importer dirs.
Proof.
  intros Hbase.
  assert (Hcheck : forall loadPath candidate,
             checkCandidate RevIndex w loadPath candidate =
             checkCandidate RevPart w loadPath candidate).
  { intros loadPath candidate. unfold checkCandidate, base. rewrite Hbase. reflexivity. }
  assert (Hexisting : forall loadPath,
             existingCandidates RevIndex w arg loadPath =
             existingCandidates RevPart w arg loadPath).
  { intros loadPath. unfold existingCandidates. rewrite candidates_revisions.
    f_equal. induction (candidates RevPart arg) as [|c cs IH]; [reflexivity|].
    cbn [promise_map]. rewrite Hcheck, IH. reflexivity. }
  induction dirs as [|d dirs IH]; [reflexivity|].
  cbn [tryLoadPaths]. rewrite Hexisting, IH. reflexivity.
Qed.

(** X6. The two revisions resolve imports alike: the tests of the
    extension with [endsWith] and with the regular expression agree on
    every specifier, so that when the build runs from the directory that
    src/index.js takes as the root of the build graph, both revisions
    return the same answer after the same calls. *)
Theorem revisions_resolve_alike (entryFile arg prev : string) :
  this_src w = fakeBase w ->
  candidates RevIndex arg = candidates RevPart arg /\
  resolveImport RevIndex w options entryFile arg prev =
  resolveImport RevPart w options entryFile arg prev.
Proof.
  intros Hbase. split; [apply candidates_revisions|].
  unfold resolveImport. rewrite (tryLoadPaths_revisions _ _ _ Hbase). reflexivity.
Qed.

End Revisions.

Lemma revisions_resolve_alike_witness :
  resolveImport (P := Example.lib) RevIndex Example.staged
    (Example.projectOptions RevIndex) "/__TRIP_SASS__/a/entry.scss" "foo" "stdin" =
  resolveImport (P := Example.lib) RevPart Example.staged
    (Example.projectOptions RevIndex) "/__TRIP_SASS__/a/entry.scss" "foo" "stdin".
Proof.
  exact (proj2 (revisions_resolve_alike (P := Example.lib) Example.staged
                  (Example.projectOptions RevIndex) "/__TRIP_SASS__/a/entry.scss"
                  "foo" "stdin" eq_refl)).
Defined.

(** * Further properties of the candidates *)

Lemma noSlash_app (a b : string) :
  Posix.noSlash a = true -> Posix.noSlash b = true -> Posix.noSlash (a +:+ b) = true.
Proof.
  intros Ha Hb. induction a as [|c a IH]; [exact Hb|].
  rewrite app_cons. cbn [Posix.noSlash] in *.
  apply andb_true_iff in Ha as [Hc Ha]. rewrite Hc, (IH Ha). reflexivity.
Qed.

Lemma join_partial_extension (d b ext : string) :
  Posix.noSlash b = true -> Posix.noSlash ext = true ->
  endsWith (Posix.join d ("_" +:+ b +:+ ext)) ext = true.
Proof.
  intros Hb Hext.
  apply (PosixFacts.endsWith_trans _ ("_" +:+ b +:+ ext)).
  - apply PosixFacts.join_partial, noSlash_app; assumption.
  - rewrite <- !append_assoc. apply endsWith_app.
Qed.

(** X7. With the POSIX path functions every candidate of every specifier
    ends in [.scss] or in [.sass]: the hook never asks the build graph or
    the disk for a file without one of the two extensions. *)
Theorem posix_candidates_extensions (cwd : string) (rev : revision)
        (arg candidate : string) :
  candidate ∈ candidates (P := Posix.lib cwd) rev arg ->
  endsWith candidate ".scss" = true \/ endsWith candidate ".sass" = true.
Proof.
  unfold candidates. cbn [path_basename path_dirname path_join Posix.lib].
  destruct (hasExtension rev arg) eqn:Hext.
  - apply hasExtension_iff in Hext.
    destruct (negb (hasUnderscore (Posix.basename arg))).
    + rewrite !elem_of_cons, elem_of_nil. intros [-> | [-> | []]]; [|exact Hext].
      destruct Hext as [H|H]; [left|right];
        apply PosixFacts.partial_sibling_extension; auto.
    + rewrite !elem_of_cons, elem_of_nil. intros [-> | []]. exact Hext.
  - pose proof (PosixFacts.basename_noSlash arg) as Hb.
    destruct (negb (hasUnderscore (Posix.basename arg)));
      rewrite !elem_of_cons, elem_of_nil.
    + intros [-> | [-> | [-> | [-> | []]]]].
      * left. apply join_partial_extension; [exact Hb|reflexivity].
      * right. apply join_partial_extension; [exact Hb|reflexivity].
      * left. apply endsWith_app.
      * right. apply endsWith_app.
    + intros [-> | [-> | []]]; [left|right]; apply endsWith_app.
Qed.

Lemma posix_candidates_extensions_witness :
  endsWith "../shared/_mixins.sass" ".scss" = true
  \/ endsWith "../shared/_mixins.sass" ".sass" = true.
Proof.
  refine (posix_candidates_extensions "/work" RevPart "../shared/mixins"
            "../shared/_mixins.sass" _).
  vm_compute. apply list_elem_of_further, list_elem_of_here.
Defined.

(** * Properties of the set-up *)

Section SetupFacts.
Context {P : PathLib}.

Lemma everyString_strings (l : list string) :
  everyString (map OString l) = Some l.
Proof.
  induction l as [|s l IH]; [reflexivity|].
  cbn [map everyString]. rewrite IH. reflexivity.
Qed.

Lemma everyString_none (items : list js_option) :
  everyString items = None <->
  exists item, item ∈ items /\ isString item = false.
Proof.
  induction items as [|item items IH].
  - split; [discriminate|]. intros (item & Hin & _).
    apply elem_of_nil in Hin. destruct Hin.
  - split.
    + intros H. destruct item as [|s|sub|t];
        try (eexists; split; [apply list_elem_of_here|reflexivity]).
      cbn [everyString] in H. destruct (everyString items) as [l|]; [discriminate|].
      destruct (proj1 IH eq_refl) as (item & Hin & Hs).
      exists item. split; [apply list_elem_of_further, Hin|exact Hs].
    + intros (bad & Hin & Hbad). apply elem_of_cons in Hin as [-> | Hin].
      * destruct item; try reflexivity. discriminate Hbad.
      * destruct item; try reflexivity. cbn [everyString].
        rewrite (proj2 IH (ex_intro _ bad (conj Hin Hbad))). reflexivity.
Qed.

(** X8. The set-up fails, with the [TypeError] on the [loadPaths] option,
    exactly when the value chosen for the load paths is truthy and is
    neither a string nor an array of strings: a truthy value of another
    type, or an array with an item that is not a string. Falsy values of
    any type are let through. *)
Theorem setup_invalid (rev : revision) (u : UserOptions) :
  setup rev u = SetupTypeError invalidLoadPaths <->
  chooseLoadPaths u = OOther true
  \/ exists items item,
      chooseLoadPaths u = OArray items /\ item ∈ items /\ isString item = false.
Proof.
  unfold setup, normaliseLoadPaths.
  destruct (chooseLoadPaths u) as [|s|items|t]; cbn [option_truthy].
  - split; [discriminate|]. intros [H|(items & item & H & _)]; discriminate H.
  - split.
    + destruct (negb (String.eqb s "")); discriminate.
    + intros [H|(items & item & H & _)]; discriminate H.
  - destruct (everyString items) as [l|] eqn:Hevery.
    + split; [discriminate|]. intros [H|(items' & item & [= <-] & Hin & Hbad)];
        [discriminate H|].
      rewrite (proj2 (everyString_none items) (ex_intro _ item (conj Hin Hbad)))
        in Hevery. discriminate Hevery.
    + split; [|reflexivity]. intros _. right.
      destruct (proj1 (everyString_none items) Hevery) as (item & Hin & Hbad).
      exists items, item. auto.
  - destruct t; split; try discriminate; try reflexivity; auto.
    intros [H|(items & item & H & _)]; discriminate H.
Qed.

(** X9. A list of strings chosen for the load paths is kept in its order,
    each path resolved against the working directory; a single string
    that is not empty stands for the list of that string. The
    directories an import is searched in are then the directory of the
    importing file followed by these paths. *)
Theorem setup_load_paths (rev : revision) (u : UserOptions) (l : list string)
        (importer : string) :
  chooseLoadPaths u = OArray (map OString l)
  \/ (exists s, s <> "" /\ chooseLoadPaths u = OString s /\ l = [s]) ->
  exists options,
    setup rev u = SetupOk options /\
    include options = default (default_include rev) (user_include u) /\
    loadPaths options = Some (map (path_resolve "") l) /\
    searchPaths options importer = path_dirname importer :: map (path_resolve "") l.
Proof.
  intros Hchosen.
  assert (Hnorm : normaliseLoadPaths (chooseLoadPaths u) =
                  Some (Some (map (path_resolve "") l))).
  { destruct Hchosen as [-> | (s & Hs & -> & ->)]; unfold normaliseLoadPaths.
    - cbn [option_truthy]. rewrite everyString_strings. reflexivity.
    - cbn [option_truthy]. apply String.eqb_neq in Hs. rewrite Hs. reflexivity. }
  eexists. unfold setup. rewrite Hnorm. split; [reflexivity|].
  split; [reflexivity|]. split; reflexivity.
Qed.

(** X10. The three names of the option are looked at in the order
    [loadPaths], [loadPath], [importPaths], and the first truthy value
    decides: the set-up is the one of the options with that value as
    [loadPaths] and no alias, so that a value behind it is never looked
    at, not even to reject it. When none is truthy there are no load
    paths, and an import is searched in the directory of the importing
    file only. *)
Theorem setup_aliases (rev : revision) (u : UserOptions) (importer : string) :
  setup rev u =
    setup rev
      (mkUserOptions (user_include u) (user_sourceMap u)
         (if option_truthy (user_loadPaths u) then user_loadPaths u
          else if option_truthy (user_loadPath u) then user_loadPath u
          else user_importPaths u)
         OUndefined OUndefined)
  /\ (option_truthy (user_loadPaths u) = false ->
      option_truthy (user_loadPath u) = false ->
      option_truthy (user_importPaths u) = false ->
      exists options,
        setup rev u = SetupOk options /\
        loadPaths options = None /\
        searchPaths options importer = [path_dirname importer]).
Proof.
  split.
  - unfold setup, chooseLoadPaths.
    cbn [user_loadPaths user_loadPath user_importPaths user_include option_truthy].
    destruct (option_truthy (user_loadPaths u)) eqn:H1;
      [|destruct (option_truthy (user_loadPath u)) eqn:H2;
        [|destruct (option_truthy (user_importPaths u)) eqn:H3]];
      cbn [negb]; rewrite ?H1, ?H2, ?H3; cbn [negb]; try reflexivity.
    unfold normaliseLoadPaths. rewrite H1, H3. reflexivity.
  - intros H1 H2 H3. eexists. unfold setup, chooseLoadPaths, normaliseLoadPaths.
    rewrite H1, H2, H3. cbn [negb]. rewrite H1.
    split; [reflexivity|]. split; reflexivity.
Qed.

End SetupFacts.

Lemma setup_load_paths_witness :
  exists options,
    setup (P := Example.lib) RevPart
      (mkUserOptions None None OUndefined (OString "lib") (OArray [OOther true])) =
      SetupOk options /\
    include options = "**/*.{sass,scss}" /\
    loadPaths options = Some ["/work/lib"] /\
    searchPaths (P := Example.lib) options "/proj/a/entry.scss" = ["/proj/a"; "/work/lib"].
Proof.
  refine (setup_load_paths (P := Example.lib) RevPart
            (mkUserOptions None None OUndefined (OString "lib") (OArray [OOther true]))
            ["lib"] "/proj/a/entry.scss" (or_intror (ex_intro _ "lib" _))).
  split; [discriminate|]. split; reflexivity.
Defined.

Lemma setup_aliases_witness :
  exists options,
    setup (P := Example.lib) RevIndex
      (mkUserOptions None None (OString "") (OOther false) OUndefined) =
      SetupOk options /\
    loadPaths options = None /\
    searchPaths (P := Example.lib) options "/proj/a/entry.scss" = ["/proj/a"].
Proof.
  exact (proj2 (setup_aliases (P := Example.lib) RevIndex
                  (mkUserOptions None None (OString "") (OOther false) OUndefined)
                  "/proj/a/entry.scss") eq_refl eq_refl eq_refl).
Defined.

(** * Properties of the state shared by the builds *)

Section SharedState.
Context {P : PathLib}.
Variable u : UserOptions.

Lemma configureAll_lookup (compiles : list (string * string)) (k : nat)
      (previous : option string) (source outputFile : string) :
  compiles !! k = Some (source, outputFile) ->
  configureAll u (Some {| so_sourceMap := SourceMapBool true; so_outFile := previous |})
    compiles !! k =
  Some {| cfg_data := source;
          cfg_sourceMap := SourceMapBool true;
          cfg_outFile :=
            match k with
            | 0 => previous
            | S j => (fun c => path_resolve1 (snd c)) <$> compiles !! j
            end |}.
Proof.
  revert k previous.
  induction compiles as [|[s0 o0] rest IH]; intros k previous Hk; [discriminate Hk|].
  cbn [configureAll configure so_sourceMap so_outFile source_map_truthy].
  destruct k as [|k].
  - injection Hk as <- <-. reflexivity.
  - cbn [lookup list_lookup] in Hk |- *.
    rewrite (IH k (Some (path_resolve1 o0)) Hk).
    destruct k; reflexivity.
Qed.

(** X11. When source maps are on, the [outFile] handed to the compiler is
    the one set by the compile before: the options of a compile are copied
    into its [config] before [outFile] is set, so the first compile gets no
    [outFile], and every later compile gets the resolved output file name
    of the compile before it (which is its own output file only when the
    two compiles have the same output file, as when a file is built
    again). *)
Theorem outFile_of_previous_compile
        (compiles : list (string * string)) (k : nat) (source outputFile : string) :
  source_map_truthy (optionSourceMap u) = true ->
  compiles !! k = Some (source, outputFile) ->
  configureAll u None compiles !! k =
  Some {| cfg_data := source;
          cfg_sourceMap :=
            match k with 0 => optionSourceMap u | S _ => SourceMapBool true end;
          cfg_outFile :=
            match k with
            | 0 => None
            | S j => (fun c => path_resolve1 (snd c)) <$> compiles !! j
            end |}.
Proof.
  intros Hon Hk. destruct compiles as [|[s0 o0] rest]; [discriminate Hk|].
  cbn [configureAll configure so_sourceMap so_outFile]. rewrite Hon.
  destruct k as [|k].
  - injection Hk as <- <-. reflexivity.
  - cbn [lookup list_lookup] in Hk |- *.
    rewrite (configureAll_lookup rest k _ source outputFile Hk).
    destruct k; reflexivity.
Qed.

(** X12. The base directory is fixed by the first build: once a build has
    run from a directory that is not the empty string, the base stays
    that directory whatever directories later builds run from. *)
Theorem base_fixed_by_first_build (src : string) (later : list string) :
  src <> "" ->
  fold_left latchBase later (latchBase None src) = Some src.
Proof.
  intros Hsrc. cbn [latchBase].
  induction later as [|next later IH]; [reflexivity|].
  cbn [fold_left latchBase]. apply String.eqb_neq in Hsrc. rewrite Hsrc. exact IH.
Qed.

End SharedState.

(** Three compiles in a row with the default options. *)
Lemma outFile_of_previous_compile_witness :
  configureAll (P := Example.lib) (mkUserOptions None None OUndefined OUndefined OUndefined)
    None [("a{}", "a.css"); ("b{}", "b.css"); ("c{}", "c.css")] !! 2 =
  Some {| cfg_data := "c{}"; cfg_sourceMap := SourceMapBool true;
          cfg_outFile := Some "/work/b.css" |}.
Proof.
  exact (outFile_of_previous_compile (P := Example.lib)
           (mkUserOptions None None OUndefined OUndefined OUndefined)
           [("a{}", "a.css"); ("b{}", "b.css"); ("c{}", "c.css")] 2 "c{}" "c.css"
           eq_refl eq_refl).
Defined.

Lemma base_fixed_by_first_build_witness :
  fold_left latchBase ["/other"; ""; "/third"] (latchBase None "/proj") = Some "/proj".
Proof.
  refine (base_fixed_by_first_build "/proj" ["/other"; ""; "/third"] _).
  discriminate.
Defined.

(** * Further properties of the build function *)

Section BuildProperties.
Context {P : PathLib}.
Variable rev : revision.
Variable w : World.
Variable options : Options.

Lemma renderCalls_app (l1 l2 : list event) :
  renderCalls (l1 ++ l2) = renderCalls l1 + renderCalls l2.
Proof. unfold renderCalls. rewrite List.filter_app, List.length_app. reflexivity. Qed.

Lemma renderCalls_queriesOf (arg : string) (dirs : list string) :
  renderCalls (queriesOf rev w arg dirs) = 0.
Proof.
  unfold queriesOf. induction dirs as [|d dirs IH]; [reflexivity|].
  cbn [flat_map]. rewrite renderCalls_app, IH, Nat.add_0_r.
  unfold queriesIn. induction (fullCandidates rev arg d) as [|c cs IHc]; [reflexivity|].
  cbn [map]. unfold renderCalls in *. cbn [List.filter].
  unfold queryOf at 1. destruct (inGraph rev w c); exact IHc.
Qed.

Lemma resolveImport_no_render (entryFile arg prev : string) :
  renderCalls (snd (resolveImport rev w options entryFile arg prev)) = 0.
Proof.
  unfold resolveImport.
  destruct (path_isAbsolute (importingFile entryFile prev)); cbn [negb];
    [|reflexivity].
  destruct (tryLoadPaths_cases rev w arg (importingFile entryFile prev)
              (searchPaths options (importingFile entryFile prev)))
    as (n & _ & _ & Hcalls & _).
  rewrite Hcalls. apply renderCalls_queriesOf.
Qed.

Lemma render_no_render (entryFile : string) (run : sass_run) (m : memos) :
  renderCalls (snd (render rev w options entryFile run m)) = 0.
Proof.
  revert m. induction run as [css|error|arg prev k IH]; intros m;
    [reflexivity|reflexivity|].
  cbn [render].
  pose proof (resolveImport_no_render entryFile arg prev) as Hhook.
  destruct (resolveImport rev w options entryFile arg prev) as [answer l1].
  cbn [snd] in Hhook.
  match goal with
  | |- context [render rev w options entryFile (k answer) ?m'] =>
      specialize (IH answer m');
      destruct (render rev w options entryFile (k answer) m') as [[r m''] l2]
  end.
  cbn [snd] in *. rewrite renderCalls_app, Hhook, IH. reflexivity.
Qed.

(** The record of a build. *)
Lemma tripSass_calls (inputFile : string) (buffer : Buffer) :
  snd (tripSass rev w options inputFile buffer) =
  if micromatch_filter w (include options) inputFile
     && negb (hasUnderscore (path_basename inputFile))
     && negb (String.eqb (buffer_toString w buffer) "")
  then EvRender (buffer_toString w buffer) ::
       snd (render rev w options (path_resolve (base rev w) inputFile)
              (sass_render w (buffer_toString w buffer))
              (initialMemos rev (path_resolve (base rev w) inputFile)))
  else [].
Proof.
  unfold tripSass.
  destruct (micromatch_filter w (include options) inputFile); [|reflexivity].
  destruct (hasUnderscore (path_basename inputFile)); [reflexivity|].
  destruct (String.eqb (buffer_toString w buffer) ""); [reflexivity|].
  cbn [negb andb].
  destruct (render rev w options _ _ _) as [[[error|css] m] calls]; reflexivity.
Qed.

Lemma renderCalls_cons_render (data : string) (calls : list event) :
  renderCalls (EvRender data :: calls) = S (renderCalls calls).
Proof. reflexivity. Qed.

(** X13. The compiler is run for entries only, and once: the record of a
    build holds one run of the compiler when the file passes the filter,
    is no partial and has a source that is not empty, and the build makes
    no call at all otherwise. *)
Theorem compiler_runs_for_entries_only (inputFile : string) (buffer : Buffer) :
  let isEntry :=
    micromatch_filter w (include options) inputFile
    && negb (hasUnderscore (path_basename inputFile))
    && negb (String.eqb (buffer_toString w buffer) "") in
  renderCalls (snd (tripSass rev w options inputFile buffer)) = (if isEntry then 1 else 0)
  /\ (isEntry = false -> snd (tripSass rev w options inputFile buffer) = [])
  /\ (isEntry = true ->
      exists calls,
        snd (tripSass rev w options inputFile buffer) =
          EvRender (buffer_toString w buffer) :: calls /\
        renderCalls calls = 0).
Proof.
  cbv zeta. rewrite tripSass_calls.
  destruct (micromatch_filter w (include options) inputFile
            && negb (hasUnderscore (path_basename inputFile))
            && negb (String.eqb (buffer_toString w buffer) "")).
  - split; [|split; [discriminate|]].
    + rewrite renderCalls_cons_render, render_no_render. reflexivity.
    + intros _. eexists. split; [reflexivity|apply render_no_render].
  - split; [reflexivity|]. split; [reflexivity|discriminate].
Qed.

(** X14. A build fails only on the verdict of the compiler: whatever it
    throws, the compiler has been run and has failed, and the thrown value
    is the raw error of the compiler in src/index.js and a [CodeError] in
    the other revision. The errors of the import hook (a specifier that is
    not found or ambiguous, a read that fails) go to the compiler and are
    never thrown by the build itself. *)
Theorem build_fails_on_compiler_verdict
        (inputFile : string) (buffer : Buffer) (e : js_error) :
  fst (tripSass rev w options inputFile buffer) = Throw e ->
  renderCalls (snd (tripSass rev w options inputFile buffer)) = 1
  /\ (exists error,
        fst (fst (render rev w options (path_resolve (base rev w) inputFile)
                    (sass_render w (buffer_toString w buffer))
                    (initialMemos rev (path_resolve (base rev w) inputFile)))) =
        inl error)
  /\ match rev, e with
     | RevIndex, SassError _ => True
     | RevPart, CodeError _ _ _ _ _ => True
     | _, _ => False
     end.
Proof.
  rewrite tripSass_calls. unfold tripSass.
  destruct (micromatch_filter w (include options) inputFile); cbn [negb andb];
    [|discriminate].
  destruct (hasUnderscore (path_basename inputFile)); cbn [negb andb]; [discriminate|].
  destruct (String.eqb (buffer_toString w buffer) ""); cbn [negb]; [discriminate|].
  rewrite renderCalls_cons_render, render_no_render.
  destruct (render rev w options _ _ _) as [[[error|css] m] calls];
    cbn [fst snd]; [|discriminate].
  intros [= <-]. split; [reflexivity|]. split; [exists error; reflexivity|].
  unfold translateError. destruct rev; exact I.
Qed.

End BuildProperties.

Section BuildProperties2.
Context {P : PathLib}.
Variable rev : revision.
Variable w : World.
Variable options : Options.

(** X15. A build gives an output for entries only, and one output file:
    when it returns an output object, the file passes the filter and is
    no partial, and the object has the single key of the output file
    name, with the empty string for an empty source and the CSS of the
    compiler otherwise. *)
Theorem output_for_entries_only
        (inputFile : string) (buffer : Buffer) (files : gmap string string) :
  fst (tripSass rev w options inputFile buffer) = Ok (Output files) ->
  micromatch_filter w (include options) inputFile = true
  /\ hasUnderscore (path_basename inputFile) = false
  /\ exists css,
      files = {[ outputFileOf rev inputFile := css ]} /\
      if String.eqb (buffer_toString w buffer) "" then css = ""
      else fst (fst (render rev w options (path_resolve (base rev w) inputFile)
                       (sass_render w (buffer_toString w buffer))
                       (initialMemos rev (path_resolve (base rev w) inputFile)))) =
           inr css.
Proof.
  unfold tripSass.
  destruct (micromatch_filter w (include options) inputFile); cbn [negb];
    [|discriminate].
  destruct (hasUnderscore (path_basename inputFile)); [discriminate|].
  destruct (String.eqb (buffer_toString w buffer) "").
  - cbn [ret fst]. intros [= <-]. split; [reflexivity|]. split; [reflexivity|].
    exists "". split; reflexivity.
  - destruct (render rev w options _ _ _) as [[[error|css] m] calls];
      cbn [fst]; [discriminate|].
    intros [= <-]. split; [reflexivity|]. split; [reflexivity|].
    exists css. split; reflexivity.
Qed.

Lemma regex_strip_cases (re : regex) (s : string) :
  regex_strip re s = s
  \/ exists m, String.length m = 5 /\ s = regex_strip re s +:+ m.
Proof.
  unfold regex_strip.
  destruct (regex_match re s) as [m|] eqn:Hm; [right|left; reflexivity].
  assert (Hsuffix : endsWith s m = true /\ String.length m = 5).
  { unfold regex_match in Hm. destruct re.
    - destruct (endsWith s ".scss") eqn:H; [|discriminate].
      injection Hm as <-. auto.
    - destruct (endsWith s ".scss") eqn:H; [injection Hm as <-; auto|].
      destruct (endsWith s ".sass") eqn:H'; [|discriminate].
      injection Hm as <-. auto. }
  destruct Hsuffix as [Hends Hlen].
  destruct (endsWith_inv _ _ Hends) as [p ->].
  exists m. split; [exact Hlen|]. rewrite dropEnd_app. reflexivity.
Qed.

(** X16. The output file is never the input file: its name ends in
    [.css] and differs from the name of the file it is built from, for
    every file name, with or without a recognised extension. *)
Theorem output_is_not_input (inputFile : string) :
  outputFileOf rev inputFile <> inputFile
  /\ endsWith (outputFileOf rev inputFile) ".css" = true.
Proof.
  unfold outputFileOf. split; [|apply endsWith_app].
  intros Heq. apply (f_equal String.length) in Heq.
  rewrite string_length_app in Heq. cbn [String.length] in Heq.
  destruct (regex_strip_cases (outputRegex rev) inputFile) as [Hsame|(m & Hm & Hsplit)].
  - rewrite Hsame in Heq. lia.
  - rewrite Hsplit in Heq at 2. rewrite string_length_app, Hm in Heq. lia.
Qed.

End BuildProperties2.

Section MemoProperties.
Context {P : PathLib}.
Variable rev : revision.
Variable w : World.
Variable options : Options.

(** A resolved import exists in the world. *)
Lemma resolveImport_exists (entryFile arg prev : string) (found : resolved) :
  fst (resolveImport rev w options entryFile arg prev) = Ok found ->
  existsAt rev w (file found) = Some found.
Proof.
  unfold resolveImport.
  destruct (path_isAbsolute (importingFile entryFile prev)); cbn [negb];
    [|discriminate].
  intros Hok.
  destruct (tryLoadPaths_cases rev w arg (importingFile entryFile prev)
              (searchPaths options (importingFile entryFile prev)))
    as (n & _ & _ & _ & Hout).
  rewrite Hok in Hout. cbn [walkOutcome] in Hout.
  destruct Hout as (d & c & _ & _ & Hex & Hfile & _). rewrite Hfile. exact Hex.
Qed.

Lemma answers_resolved (entryFile : string) (run : sass_run)
      (arg : string) (found : resolved) :
  (arg, Ok found) ∈ answers rev w options entryFile run ->
  exists prev, fst (resolveImport rev w options entryFile arg prev) = Ok found.
Proof.
  induction run as [css|error|arg' prev' k IH]; cbn [answers]; intros Hin.
  - apply elem_of_nil in Hin. destruct Hin.
  - apply elem_of_nil in Hin. destruct Hin.
  - apply elem_of_cons in Hin as [Heq|Hin].
    + injection Heq as -> Hfound. exists prev'. symmetry. exact Hfound.
    + exact (IH _ Hin).
Qed.

Lemma rememberAll_entry (l : list (string * outcome resolved)) (m : memos)
      (path text : string) :
  rememberedImportContents (rememberAll rev l m) !! path = Some text ->
  rememberedImportContents m !! path = Some text
  \/ exists arg found,
      (arg, Ok found) ∈ l /\ file found = path /\ contents found = text.
Proof.
  unfold rememberAll. revert m.
  induction l as [|[arg answer] l IH]; intros m Hget; [left; exact Hget|].
  cbn [fold_left snd fst] in Hget.
  destruct (IH _ Hget) as [Hm|(a & r & Hin & Hfile & Htext)].
  - destruct answer as [found|e]; [|left; exact Hm].
    cbn [remember rememberedImportContents] in Hm. unfold Memo.set in Hm.
    destruct (String.eqb (file found) "__proto__"); [left; exact Hm|].
    destruct (decide (file found = path)) as [Heq|Hne].
    + rewrite Heq, lookup_insert_eq in Hm. injection Hm as Htext.
      right. exists arg, found. split; [apply list_elem_of_here|auto].
    + rewrite lookup_insert_ne in Hm by exact Hne. left. exact Hm.
  - right. exists a, r. split; [apply list_elem_of_further, Hin|auto].
Qed.

(** X17. The memo of remembered contents holds only imports that were
    resolved: every path it holds after a run of the compiler is the path
    of a file that exists, in the build graph or on disk, and the text
    remembered for it is the contents of that file. An import that failed
    leaves no entry. *)
Theorem remembered_contents_exist (entryFile : string) (run : sass_run)
        (path text : string) :
  rememberedImportContents
    (snd (fst (render rev w options entryFile run (initialMemos rev entryFile))))
    !! path = Some text ->
  existsAt rev w path = Some {| contents := text; file := path |}.
Proof.
  rewrite render_memos. intros Hget.
  destruct (rememberAll_entry _ _ _ _ Hget) as [Hinit|(arg & found & Hin & Hfile & Htext)].
  - unfold initialMemos in Hinit. cbn [rememberedImportContents] in Hinit.
    rewrite lookup_empty in Hinit. discriminate Hinit.
  - destruct (answers_resolved _ _ _ _ Hin) as [prev Hok].
    pose proof (resolveImport_exists _ _ _ _ Hok) as Hex.
    destruct found as [c f]. cbn [file contents] in *. subst. exact Hex.
Qed.

Lemma firstLine_no_line_feed (s pre post : string) :
  firstLine s <> pre +:+ nl +:+ post.
Proof.
  revert pre. induction s as [|c s IH]; intros pre; cbn [firstLine].
  - destruct pre; discriminate.
  - destruct (Ascii.eqb c "010") eqn:Hc; [destruct pre; discriminate|].
    destruct pre as [|c' pre].
    + rewrite app_nil. unfold nl. rewrite app_cons. intros [= -> _].
      discriminate Hc.
    + rewrite app_cons. intros [= _ H]. exact (IH pre H).
Qed.

Lemma firstLine_prefix (s : string) :
  s = firstLine s \/ exists rest, s = firstLine s +:+ nl +:+ rest.
Proof.
  induction s as [|c s IH]; cbn [firstLine]; [left; reflexivity|].
  destruct (Ascii.eqb c "010") eqn:Hc.
  - apply Ascii.eqb_eq in Hc. subst c. right. exists s. reflexivity.
  - destruct IH as [IH|[rest IH]].
    + left. f_equal. exact IH.
    + right. exists rest. rewrite app_cons. f_equal. exact IH.
Qed.

(** X18. The message of the translated error is the raw message of the
    compiler up to its first line feed: it holds no line feed, and the raw
    message is that text, alone or followed by a line feed and the rest.
    The line and the column are those of the raw error. *)
Theorem translated_message_is_first_line
        (entryFile source : string) (m : memos) (error : sass_error) :
  exists message reported text,
    translateError RevPart entryFile source m error =
      CodeError message reported text (se_line error) (se_column error)
    /\ (forall pre post, message <> pre +:+ nl +:+ post)
    /\ (se_message error = message
        \/ exists rest, se_message error = message +:+ nl +:+ rest).
Proof.
  cbn [translateError]. do 3 eexists. split; [reflexivity|].
  split; [apply firstLine_no_line_feed|apply firstLine_prefix].
Qed.

End MemoProperties.

(** A partial with a source, an excluded file, and an entry. *)
Lemma compiler_runs_for_entries_only_witness :
  snd (tripSass (P := Example.lib) RevPart Example.project (defaults RevPart)
         "a/_foo.scss" (mkBuffer "a{}")) = []
  /\ snd (tripSass (P := Example.lib) RevPart Example.project (defaults RevPart)
            "notes.txt" (mkBuffer "text")) = []
  /\ exists calls,
      snd (tripSass (P := Example.lib) RevPart Example.project (defaults RevPart)
             "a/entry.scss" (mkBuffer "@import 'foo';")) =
        EvRender "@import 'foo';" :: calls
      /\ renderCalls calls = 0.
Proof.
  split; [|split].
  - exact (proj1 (proj2 (compiler_runs_for_entries_only (P := Example.lib) RevPart
                           Example.project (defaults RevPart) "a/_foo.scss"
                           (mkBuffer "a{}"))) eq_refl).
  - exact (proj1 (proj2 (compiler_runs_for_entries_only (P := Example.lib) RevPart
                           Example.project (defaults RevPart) "notes.txt"
                           (mkBuffer "text"))) eq_refl).
  - exact (proj2 (proj2 (compiler_runs_for_entries_only (P := Example.lib) RevPart
                           Example.project (defaults RevPart) "a/entry.scss"
                           (mkBuffer "@import 'foo';"))) eq_refl).
Defined.

Lemma build_fails_on_compiler_verdict_witness :
  renderCalls (snd (tripSass (P := Example.lib) RevIndex Example.elsewhere
                      (defaults RevIndex) "a/entry.scss" (mkBuffer "a { b: c }"))) = 1.
Proof.
  exact (proj1 (build_fails_on_compiler_verdict (P := Example.lib) RevIndex
                  Example.elsewhere (defaults RevIndex) "a/entry.scss"
                  (mkBuffer "a { b: c }")
                  (SassError (mkSassError "boom" "/elsewhere/x.scss" 3 4)) eq_refl)).
Defined.

Lemma output_for_entries_only_witness :
  micromatch_filter Example.emptyWorld (include (defaults RevPart)) "css/main.sass" = true
  /\ hasUnderscore (path_basename (PathLib := Example.lib) "css/main.sass") = false
  /\ exists css,
      ({[ "css/main.css" := "a{}" ]} : gmap string string) =
        {[ outputFileOf RevPart "css/main.sass" := css ]} /\
      if String.eqb (buffer_toString Example.emptyWorld (mkBuffer "a{}")) "" then css = ""
      else fst (fst (render (P := Example.lib) RevPart Example.emptyWorld (defaults RevPart)
                       (path_resolve (PathLib := Example.lib)
                          (base RevPart Example.emptyWorld) "css/main.sass")
                       (sass_render Example.emptyWorld
                          (buffer_toString Example.emptyWorld (mkBuffer "a{}")))
                       (initialMemos RevPart
                          (path_resolve (PathLib := Example.lib)
                             (base RevPart Example.emptyWorld) "css/main.sass")))) =
           inr css.
Proof.
  exact (output_for_entries_only (P := Example.lib) RevPart Example.emptyWorld
           (defaults RevPart) "css/main.sass" (mkBuffer "a{}")
           {[ "css/main.css" := "a{}" ]} eq_refl).
Defined.

(** The partial that the failing run imported is remembered. *)
Lemma remembered_contents_exist_witness :
  existsAt (P := Example.lib) RevPart Example.project "/proj/a/_foo.scss" =
  Some {| contents := "a{}"; file := "/proj/a/_foo.scss" |}.
Proof.
  exact (remembered_contents_exist (P := Example.lib) RevPart Example.project
           (defaults RevPart) "/proj/a/entry.scss" Example.failingRun
           "/proj/a/_foo.scss" "a{}" eq_refl).
Defined.

Section EmptyContents.
Context {P : PathLib}.
Variable rev : revision.
Variable w : World.

(** X19. Empty contents. A file on disk that is empty exists for the
    import, with the empty string as contents, and so does an empty buffer
    from the build graph: only a falsy answer of the build graph counts as
    no file. *)
Theorem empty_file_exists (loadPath candidate : string) (found : Buffer) :
  buffer_toString w found = "" ->
  (inGraph rev w (path_resolve loadPath candidate) = false /\
   readFile w (path_resolve loadPath candidate) = ReadOk found)
  \/ (inGraph rev w (path_resolve loadPath candidate) = true /\
      importFile w (path_relative (base rev w) (path_resolve loadPath candidate)) =
        CBuffer found) ->
  fst (checkCandidate rev w loadPath candidate) =
    Ok (Some {| contents := ""; file := path_resolve loadPath candidate |})
  /\ existsAt rev w (path_resolve loadPath candidate) =
    Some {| contents := ""; file := path_resolve loadPath candidate |}.
Proof.
  intros Hempty Hwhere. rewrite checkCandidate_spec. cbn [fst].
  unfold readFailure, existsAt.
  destruct Hwhere as [[Hout Hread]|[Hin Hgraph]].
  - rewrite Hout, Hread, Hempty. split; reflexivity.
  - rewrite Hin, Hgraph. cbn [truthy contents_toString]. rewrite Hempty.
    split; reflexivity.
Qed.

End EmptyContents.

Section RevisionsBuild.
Context {P : PathLib}.
Variable w : World.
Variable options : Options.

Lemma resolveImport_revisions (entryFile arg prev : string) :
  this_src w = fakeBase w ->
  resolveImport RevIndex w options entryFile arg prev =
  resolveImport RevPart w options entryFile arg prev.
Proof.
  intros Hbase. unfold resolveImport.
  rewrite (tryLoadPaths_revisions w _ _ _ Hbase). reflexivity.
Qed.

Lemma render_revisions (entryFile : string) (run : sass_run) (m1 m2 : memos) :
  this_src w = fakeBase w ->
  fst (fst (render RevIndex w options entryFile run m1)) =
    fst (fst (render RevPart w options entryFile run m2))
  /\ snd (render RevIndex w options entryFile run m1) =
     snd (render RevPart w options entryFile run m2).
Proof.
  intros Hbase. revert m1 m2.
  induction run as [css|error|arg prev k IH]; intros m1 m2;
    [split; reflexivity|split; reflexivity|].
  cbn [render].
  rewrite (resolveImport_revisions entryFile arg prev Hbase).
  destruct (resolveImport RevPart w options entryFile arg prev) as [answer l1].
  match goal with
  | |- context [render RevIndex w options entryFile (k answer) ?a] =>
      match goal with
      | |- context [render RevPart w options entryFile (k answer) ?b] =>
          specialize (IH answer a b)
      end
  end.
  destruct (render RevIndex w options entryFile (k answer) _) as [[r1 m1'] c1].
  destruct (render RevPart w options entryFile (k answer) _) as [[r2 m2'] c2].
  cbn [fst snd] in *. destruct IH as [-> ->]. split; reflexivity.
Qed.

End RevisionsBuild.

Section RevisionsBuild2.
Context {P : PathLib}.
Variable w : World.
Variable options : Options.

Lemma outputFileOf_revisions (inputFile : string) :
  endsWith inputFile ".sass" = false ->
  outputFileOf RevIndex inputFile = outputFileOf RevPart inputFile.
Proof.
  intros Hsass. unfold outputFileOf, regex_strip, regex_match. cbn [outputRegex].
  rewrite Hsass. destruct (endsWith inputFile ".scss"); reflexivity.
Qed.

(** X20. The two revisions build alike every file that does not end in
    [.sass], under the same options and from the directory that
    src/index.js takes as the root of the build graph: they make the same
    calls, and either return the same result, or both fail, src/index.js
    with the raw error of the compiler and the other revision with the
    [CodeError] made from it. *)
Theorem revisions_build_alike (inputFile : string) (buffer : Buffer) :
  this_src w = fakeBase w ->
  endsWith inputFile ".sass" = false ->
  snd (tripSass RevIndex w options inputFile buffer) =
    snd (tripSass RevPart w options inputFile buffer)
  /\ match fst (tripSass RevIndex w options inputFile buffer),
           fst (tripSass RevPart w options inputFile buffer) with
     | Ok a, Ok b => a = b
     | Throw (SassError error), Throw (CodeError message _ _ line column) =>
         message = firstLine (se_message error)
         /\ line = se_line error /\ column = se_column error
     | _, _ => False
     end.
Proof.
  intros Hbase Hsass. unfold tripSass.
  rewrite (outputFileOf_revisions inputFile Hsass).
  destruct (micromatch_filter w (include options) inputFile); cbn [negb];
    [|split; reflexivity].
  destruct (hasUnderscore (path_basename inputFile)); [split; reflexivity|].
  destruct (String.eqb (buffer_toString w buffer) ""); [split; reflexivity|].
  assert (Hroot : base RevIndex w = base RevPart w)
    by (unfold base; symmetry; exact Hbase).
  rewrite Hroot.
  pose proof (render_revisions w options (path_resolve (base RevPart w) inputFile)
                (sass_render w (buffer_toString w buffer))
                (initialMemos RevIndex (path_resolve (base RevPart w) inputFile))
                (initialMemos RevPart (path_resolve (base RevPart w) inputFile))
                Hbase) as [Hresult Hcalls].
  destruct (render RevIndex w options _ _ _) as [[r1 m1] c1].
  destruct (render RevPart w options _ _ _) as [[r2 m2] c2].
  cbn [fst snd] in Hresult, Hcalls. subst r2 c2.
  destruct r1 as [error|css]; cbn [fst snd translateError]; split; auto.
Qed.

End RevisionsBuild2.

Lemma empty_file_exists_witness :
  fst (checkCandidate (P := Example.lib) RevPart Example.blankDisk
         "/lib" "_blank.scss") =
  Ok (Some {| contents := ""; file := "/lib/_blank.scss" |}).
Proof.
  exact (proj1 (empty_file_exists (P := Example.lib) RevPart Example.blankDisk
                  "/lib" "_blank.scss" (mkBuffer "") eq_refl
                  (or_introl (conj eq_refl eq_refl)))).
Defined.

Lemma revisions_build_alike_witness :
  snd (tripSass (P := Example.lib) RevIndex Example.staged (defaults RevIndex)
         "a/entry.scss" (mkBuffer "@import 'foo';")) =
  snd (tripSass (P := Example.lib) RevPart Example.staged (defaults RevIndex)
         "a/entry.scss" (mkBuffer "@import 'foo';")).
Proof.
  exact (proj1 (revisions_build_alike (P := Example.lib) Example.staged
                  (defaults RevIndex) "a/entry.scss" (mkBuffer "@import 'foo';")
                  eq_refl eq_refl)).
Defined.

(** An array with an item that is not a string. *)
Lemma setup_invalid_witness :
  setup (P := Example.lib) RevPart
    (mkUserOptions None None (OArray [OString "lib"; OOther true]) OUndefined OUndefined) =
  SetupTypeError invalidLoadPaths.
Proof.
  refine (proj2 (setup_invalid (P := Example.lib) RevPart
                   (mkUserOptions None None (OArray [OString "lib"; OOther true])
                      OUndefined OUndefined))
            (or_intror (ex_intro _ [OString "lib"; OOther true]
                          (ex_intro _ (OOther true) (conj eq_refl (conj _ eq_refl)))))).
  apply list_elem_of_further, list_elem_of_here.
Defined.
